(** * IPBlacklistChecker (blacklist_checker.py): cache, aggregation, adapters

    A shallow embedding of the class [IPBlacklistChecker]: the three
    per-provider check functions, the aggregation loop of [is_blacklisted],
    the timestamped dictionary [self.cache], the [functools.lru_cache]
    decorator that wraps [is_blacklisted], and [clear_cache].

    Conventions of the embedding.
    - Time is an integer number of microseconds (the resolution of
      [datetime]); [cache_duration] is [timedelta(hours=24)].
    - Everything outside the process (environment variables, the answers of
      the upstream providers, how long a request takes) is read from an
      [Env] that is a parameter of each call, so that it may differ from one
      call to the next.
    - What the code does to the outside (requests sent, log calls, reading
      the clock) is recorded in a [World]; the two caches live in [State].
    - Python exceptions are modelled by a result type; every exception the
      adapters can raise is a subclass of [Exception].
    - Parsed JSON is a [pyval]; JSON numbers are integers here.
    - A Python [str] is the byte string of its UTF-8 encoding, so that
      [needle in text] is the search for a run of bytes (in UTF-8 the bytes
      of a needle can only occur at a character of the text). [str.lower()], the
      lower-casing of the Python runtime by the Unicode tables, is not code
      of this repository: it is read from the [Env] as [str_lower]. On
      ASCII text it is [ascii_lower].
    - One checker is modelled, the module's global [blacklist_checker]; the
      memo of [lru_cache] is the part of the decorator's store that is keyed
      by this instance. Its keys are built from the arguments as the call
      gives them, so a [call_form] is part of the key.
    - A log call is recorded as a level and a structured message, not as
      the formatted text. *)

From Stdlib Require Import ZArith Lia Ascii String.
From stdpp Require Import gmap strings list fin_maps.

Set Warnings "-register-all".
Local Open Scope Z_scope.

(** ** Exceptions and the state-and-exception monad *)

Inductive exn : Type :=
| RequestException   (* raised by requests.get: connection error, timeout *)
| JSONDecodeError    (* raised by response.json() *)
| AttributeError     (* .get on a value that is not a dict *)
| TypeError.         (* comparison or arithmetic on a non-number *)

Inductive res (A : Type) : Type :=
| Ok (a : A)
| Raise (e : exn).
Arguments Ok {A} a.
Arguments Raise {A} e.

Definition M (S A : Type) : Type := S -> res A * S.

Definition ret {S A : Type} (a : A) : M S A := fun s => (Ok a, s).

Definition raise {S A : Type} (e : exn) : M S A := fun s => (Raise e, s).

Definition bind {S A B : Type} (m : M S A) (k : A -> M S B) : M S B :=
  fun s =>
    match m s with
    | (Ok a, s') => k a s'
    | (Raise e, s') => (Raise e, s')
    end.

(** [try: m except Exception as e: ...]: the effects of [m] up to the point
    where it raised are kept. *)
Definition try_except {S A : Type} (m : M S A) : M S (A + exn) :=
  fun s =>
    match m s with
    | (Ok a, s') => (Ok (inl a), s')
    | (Raise e, s') => (Ok (inr e), s')
    end.

Definition get {S : Type} : M S S := fun s => (Ok s, s).
Definition modify {S : Type} (f : S -> S) : M S unit := fun s => (Ok tt, f s).
Definition of_res {S A : Type} (r : res A) : M S A := fun s => (r, s).

Notation "'let*' x ':=' c 'in' k" := (bind c (fun x => k))
  (at level 10, x pattern, c at level 100, k at level 200).
Notation "c ';;' k" := (bind c (fun _ => k))
  (at level 100, k at level 200, right associativity).

(** ** Python values as produced by [response.json()] *)

Inductive pyval : Type :=
| PyNone
| PyBool (b : bool)
| PyInt (n : Z)
| PyStr (s : string)
| PyList (l : list pyval)
| PyDict (d : list (string * pyval)).

(** Lookup in a dict given as a list of bindings. *)
Fixpoint dict_lookup (d : list (string * pyval)) (k : string) : option pyval :=
  match d with
  | [] => None
  | (k', v) :: d' => if String.eqb k k' then Some v else dict_lookup d' k
  end.

(** [v.get(key, default)]: only a dict has [.get]. *)
Definition py_get (v : pyval) (key : string) (default : pyval) : res pyval :=
  match v with
  | PyDict d =>
      match dict_lookup d key with
      | Some x => Ok x
      | None => Ok default
      end
  | _ => Raise AttributeError
  end.

(** A value used as a number (in [x > 75], [x > 0], [min(100, x * 10)]).
    [bool] is a subclass of [int]; on [None], a str, a list or a dict the
    statement raises [TypeError] (in [min(100, frequency * 10)] a str or a
    list is first repeated ten times, and the comparison inside [min] then
    raises). *)
Definition py_num (v : pyval) : res Z :=
  match v with
  | PyInt n => Ok n
  | PyBool b => Ok (if b then 1 else 0)
  | _ => Raise TypeError
  end.

(** ** Strings: [needle in text], and lower-casing of ASCII text *)

(** What [str.lower()] does to a text of ASCII characters: the letters A-Z
    become a-z, every other byte is kept. *)
Definition ascii_lower_char (c : ascii) : ascii :=
  let n := N_of_ascii c in
  if ((65 <=? n) && (n <=? 90))%N then ascii_of_N (n + 32) else c.

Fixpoint ascii_lower (s : string) : string :=
  match s with
  | EmptyString => EmptyString
  | String c t => String (ascii_lower_char c) (ascii_lower t)
  end.

Fixpoint contains (needle text : string) : bool :=
  String.prefix needle text ||
  match text with
  | EmptyString => false
  | String _ t => contains needle t
  end.

(** ** The outside world *)

Record request : Type := {
  url : string;
  headers : list (string * string);
  params : list (string * string);
  timeout : Z
}.

Record Response : Type := {
  status_code : Z;
  text : string;
  json : option pyval      (* None: response.json() raises *)
}.

Record Env : Type := {
  environ : string -> option string;   (* os.environ.get *)
  net : request -> option Response;    (* None: requests.get raises *)
  latency : request -> Z;              (* time taken by the request *)
  str_lower : string -> string         (* str.lower() of the runtime *)
}.

Inductive level : Type := DEBUG | INFO | WARNING | ERROR.

Definition Verdict : Type := bool * option string * Z.

Inductive message : Type :=
| MsgCacheHit (ip : string) (cached_data : Verdict)
| MsgChecking (ip : string)
| MsgBlacklisted (ip source_name : string) (confidence : Z)
| MsgNotFound (ip source_name : string)
| MsgError (source_name ip : string) (e : exn)
| MsgNotBlacklisted (ip : string)
| MsgNoApiKey
| MsgCheckingSource (provider ip : string)
| MsgAbuseScore (ip : string) (abuse_score : pyval)
| MsgAppears (ip : string) (frequency confidence : Z)
| MsgFoundWithAttacks (ip : string)
| MsgApiError (provider : string) (status : Z)
| MsgInitialized (names : list string)
| MsgCacheCleared (cache_size : Z).

Record World : Type := {
  now : Z;                          (* the clock read by datetime.now() *)
  sent : list request;              (* requests sent so far, oldest first *)
  log : list (level * message)      (* calls to the logger, oldest first *)
}.

Definition add_log (w : World) (r : level * message) : World :=
  {| now := now w; sent := sent w; log := log w ++ [r] |}.

Definition logger (lvl : level) (m : message) : M World unit :=
  modify (fun w => add_log w (lvl, m)).

Definition datetime_now : M World Z := fun w => (Ok (now w), w).

Definition requests_get (env : Env) (r : request) : M World Response :=
  fun w =>
    let w' := {| now := now w + latency env r; sent := sent w ++ [r]; log := log w |} in
    match net env r with
    | Some response => (Ok response, w')
    | None => (Raise RequestException, w')
    end.

Definition response_json (response : Response) : M World pyval :=
  match json response with
  | Some data => ret data
  | None => raise JSONDecodeError
  end.

(** ** The three source adapters *)

Definition adapter : Type := Env -> string -> M World (bool * Z).

(** [not api_key]: the variable is unset, or set to the empty string. *)
Definition py_not (api_key : option string) : bool :=
  match api_key with
  | None => true
  | Some s => String.eqb s ""
  end.

Definition _check_abuseipdb : adapter := fun env ip =>
  let api_key := environ env "ABUSEIPDB_API_KEY" in
  if py_not api_key then
    logger DEBUG MsgNoApiKey ;;
    ret (false, 0)
  else
    let url := "https://api.abuseipdb.com/api/v2/check" in
    let headers := [("Accept", "application/json"); ("Key", default "" api_key)] in
    let params := [("ipAddress", ip); ("maxAgeInDays", "90")] in
    logger DEBUG (MsgCheckingSource "AbuseIPDB" ip) ;;
    let* response := requests_get env
      {| url := url; headers := headers; params := params; timeout := 5 |} in
    if status_code response =? 200 then
      let* data := response_json response in
      let* inner := of_res (py_get data "data" (PyDict [])) in
      let* abuse_score := of_res (py_get inner "abuseConfidenceScore" (PyInt 0)) in
      logger INFO (MsgAbuseScore ip abuse_score) ;;
      let* score := of_res (py_num abuse_score) in
      ret (75 <? score, score)
    else
      logger WARNING (MsgApiError "AbuseIPDB" (status_code response)) ;;
      ret (false, 0).

Definition _check_stopforumspam : adapter := fun env ip =>
  let url := "https://api.stopforumspam.org/api?ip=" +:+ ip +:+ "&json" in
  logger DEBUG (MsgCheckingSource "StopForumSpam" ip) ;;
  let* response := requests_get env
    {| url := url; headers := []; params := []; timeout := 5 |} in
  if status_code response =? 200 then
    let* data := response_json response in
    let* entry := of_res (py_get data "ip" (PyDict [])) in
    let* appears := of_res (py_get entry "appears" (PyInt 0)) in
    let* n := of_res (py_num appears) in
    if 0 <? n then
      let* entry' := of_res (py_get data "ip" (PyDict [])) in
      let* frequency := of_res (py_get entry' "frequency" (PyInt 0)) in
      let* f := of_res (py_num frequency) in
      let confidence := Z.min 100 (f * 10) in
      logger INFO (MsgAppears ip f confidence) ;;
      ret (true, confidence)
    else
      ret (false, 0)
  else
    logger WARNING (MsgApiError "StopForumSpam" (status_code response)) ;;
    ret (false, 0).

Definition _check_blocklist_de : adapter := fun env ip =>
  let url := "https://api.blocklist.de/api.php?ip=" +:+ ip in
  logger DEBUG (MsgCheckingSource "blocklist.de" ip) ;;
  let* response := requests_get env
    {| url := url; headers := []; params := []; timeout := 5 |} in
  if status_code response =? 200 then
    let text := str_lower env (text response) in
    if contains "attacks:" text && negb (contains "attacks: 0" text) then
      logger INFO (MsgFoundWithAttacks ip) ;;
      ret (true, 80)
    else
      ret (false, 0)
  else
    logger WARNING (MsgApiError "blocklist.de" (status_code response)) ;;
    ret (false, 0).

(** ** The checker: [self.cache], the memo of [lru_cache], and the world *)

(** How a call of [is_blacklisted] passes its arguments. [lru_cache] makes
    its key from the positional arguments followed by the keyword arguments
    in the order they are written, so the same checker and address give a
    different key in each form. *)
Inductive call_form : Type :=
| Positional         (* checker.is_blacklisted(ip) *)
| Keyword            (* checker.is_blacklisted(ip_address=ip) *)
| KeywordSelfFirst   (* IPBlacklistChecker.is_blacklisted(self=checker, ip_address=ip) *)
| KeywordSelfLast.   (* IPBlacklistChecker.is_blacklisted(ip_address=ip, self=checker) *)

Definition memo_key : Type := call_form * string.

Definition form_eqb (f1 f2 : call_form) : bool :=
  match f1, f2 with
  | Positional, Positional
  | Keyword, Keyword
  | KeywordSelfFirst, KeywordSelfFirst
  | KeywordSelfLast, KeywordSelfLast => true
  | _, _ => false
  end.

Definition key_eqb (k1 k2 : memo_key) : bool :=
  form_eqb (fst k1) (fst k2) && String.eqb (snd k1) (snd k2).

Record State : Type := {
  cache : gmap string (Verdict * Z);   (* self.cache: ip -> (result, time) *)
  memo : list (memo_key * Verdict);    (* lru_cache: most recently used first *)
  world : World
}.

Definition set_cache (st : State) (c : gmap string (Verdict * Z)) : State :=
  {| cache := c; memo := memo st; world := world st |}.

Definition set_memo (st : State) (m : list (memo_key * Verdict)) : State :=
  {| cache := cache st; memo := m; world := world st |}.

Definition set_world (st : State) (w : World) : State :=
  {| cache := cache st; memo := memo st; world := w |}.

Definition cache_duration : Z := 24 * 3600 * 1000000.   (* timedelta(hours=24) *)

(** An action on the world, run from inside the checker. *)
Definition lift {A : Type} (m : M World A) : M State A :=
  fun st =>
    let (r, w') := m (world st) in
    (r, set_world st w').

(** [self.cache[cache_key] = (result, datetime.now())] *)
Definition cache_store (cache_key : string) (result : Verdict) : M State unit :=
  let* t := lift datetime_now in
  modify (fun st => set_cache st (<[cache_key := (result, t)]> (cache st))).

(** [self.sources] as set by [__init__], in insertion order. *)
Definition init_sources : list (string * adapter) :=
  [ ("abuseipdb", _check_abuseipdb);
    ("stopforumspam", _check_stopforumspam);
    ("blocklist_de", _check_blocklist_de) ].

Definition __init__ (sources : list (string * adapter)) (w : World) : State :=
  {| cache := ∅; memo := [];
     world := add_log w (INFO, MsgInitialized (map fst sources)) |}.

Section Checker.

Variable sources : list (string * adapter).

(** The [for source_name, check_func in self.sources.items()] loop and the
    code after it. *)
Fixpoint check_sources (items : list (string * adapter)) (env : Env)
    (ip_address : string) : M State Verdict :=
  match items with
  | (source_name, check_func) :: rest =>
      let* r := try_except (lift (check_func env ip_address)) in
      match r with
      | inl (is_blocked, confidence) =>
          if is_blocked then
            let result := (true, Some source_name, confidence) in
            cache_store ip_address result ;;
            lift (logger WARNING (MsgBlacklisted ip_address source_name confidence)) ;;
            ret result
          else
            lift (logger DEBUG (MsgNotFound ip_address source_name)) ;;
            check_sources rest env ip_address
      | inr e =>
          lift (logger ERROR (MsgError source_name ip_address e)) ;;
          check_sources rest env ip_address
      end
  | [] =>
      let result := (false, None, 0) in
      cache_store ip_address result ;;
      lift (logger INFO (MsgNotBlacklisted ip_address)) ;;
      ret result
  end.

(** The body of [is_blacklisted], without its decorator. *)
Definition is_blacklisted_wrapped (env : Env) (ip_address : string) : M State Verdict :=
  let cache_key := ip_address in
  let miss :=
    lift (logger INFO (MsgChecking ip_address)) ;;
    check_sources sources env ip_address in
  let* st := get in
  match cache st !! cache_key with
  | Some (cached_data, cached_time) =>
      let* t := lift datetime_now in
      if t - cached_time <? cache_duration then
        lift (logger DEBUG (MsgCacheHit ip_address cached_data)) ;;
        ret cached_data
      else miss
  | None => miss
  end.

(** [functools.lru_cache(maxsize=10000)] around the method. The key of a
    call is made of its form and of the address. A hit returns the stored
    result without calling the function and makes the entry the most recent
    one; a miss calls the function and, when it returns, stores the result,
    dropping the least recent entry when the memo is full. A call that
    raises stores nothing. *)
Definition maxsize : Z := 10000.

Fixpoint memo_lookup (m : list (memo_key * Verdict)) (key : memo_key) : option Verdict :=
  match m with
  | [] => None
  | (k, v) :: m' => if key_eqb key k then Some v else memo_lookup m' key
  end.

Definition memo_remove (key : memo_key) (m : list (memo_key * Verdict)) :
    list (memo_key * Verdict) :=
  List.filter (fun p => negb (key_eqb key (fst p))) m.

Definition evict (m : list (memo_key * Verdict)) : list (memo_key * Verdict) :=
  if maxsize <=? Z.of_nat (length m) then removelast m else m.

Definition lru_cache (user_function : string -> M State Verdict)
    (form : call_form) (ip_address : string) : M State Verdict :=
  fun st =>
    let key := (form, ip_address) in
    match memo_lookup (memo st) key with
    | Some result =>
        (Ok result, set_memo st ((key, result) :: memo_remove key (memo st)))
    | None =>
        match user_function ip_address st with
        | (Ok result, st') =>
            match memo_lookup (memo st') key with
            | Some _ => (Ok result, st')
            | None => (Ok result, set_memo st' ((key, result) :: evict (memo st')))
            end
        | (Raise e, st') => (Raise e, st')
        end
    end.

(** [is_blacklisted] as callers see it: the decorated method, called in
    the given form. *)
Definition is_blacklisted (form : call_form) (env : Env) (ip_address : string) :
    M State Verdict :=
  lru_cache (is_blacklisted_wrapped env) form ip_address.

End Checker.

(** [clear_cache] has no [return] statement: the call evaluates to [None]. *)
Definition clear_cache : M State pyval :=
  let* st := get in
  let cache_size := Z.of_nat (size (cache st)) in
  modify (fun st => set_cache st ∅) ;;
  modify (fun st => set_memo st []) ;;
  lift (logger INFO (MsgCacheCleared cache_size)) ;;
  ret PyNone.

(** The environment acting between two calls: the clock moves by [d]. *)
Definition advance (d : Z) (st : State) : State :=
  set_world st {| now := now (world st) + d; sent := sent (world st);
                  log := log (world st) |}.


(** ** The logger set up when the module is loaded

    [logger.setLevel(logging.INFO)] drops every record below INFO before any
    handler sees it; the file handler has level INFO and the console handler
    level WARNING. Formatting and the daily rotation of the file are not
    modelled: a handler is the list of records it is given. *)

Definition levelno (lvl : level) : Z :=
  match lvl with
  | DEBUG => 10
  | INFO => 20
  | WARNING => 30
  | ERROR => 40
  end.

Definition logger_level : level := INFO.
Definition file_handler_level : level := INFO.
Definition console_handler_level : level := WARNING.

(** The records of a log that the logger passes on and a handler of level
    [handler_level] emits. *)
Definition emitted (handler_level : level) (records : list (level * message)) :
    list (level * message) :=
  List.filter
    (fun r => (levelno logger_level <=? levelno (fst r))
              && (levelno handler_level <=? levelno (fst r)))
    records.

Definition file_records (w : World) : list (level * message) :=
  emitted file_handler_level (log w).

Definition console_records (w : World) : list (level * message) :=
  emitted console_handler_level (log w).
(** * Vocabulary of the statements *)

(** State after a blocking answer [confidence] of [source_name], given the
    world [w] left by its check function. *)
Definition blocked_state (st : State) (w : World) (ip source_name : string)
    (confidence : Z) : State :=
  set_world
    (set_cache (set_world st w)
       (<[ip := ((true, Some source_name, confidence), now w)]> (cache st)))
    (add_log w (WARNING, MsgBlacklisted ip source_name confidence)).

(** State after the loop has run out of adapters: the clean verdict is
    stored with the current time and logged. *)
Definition clean_state (st : State) (ip : string) : State :=
  set_world
    (set_cache st (<[ip := ((false, None, 0), now (world st))]> (cache st)))
    (add_log (world st) (INFO, MsgNotBlacklisted ip)).

(** The entry of the timed cache that a lookup at the current time would
    return, if any. *)
Definition live_entry (st : State) (ip : string) : option Verdict :=
  match cache st !! ip with
  | Some (cached_data, cached_time) =>
      if now (world st) - cached_time <? cache_duration then Some cached_data else None
  | None => None
  end.


(** The requests the three adapters send for an address. *)
Definition abuseipdb_request (api_key ip : string) : request :=
  {| url := "https://api.abuseipdb.com/api/v2/check";
     headers := [("Accept", "application/json"); ("Key", api_key)];
     params := [("ipAddress", ip); ("maxAgeInDays", "90")];
     timeout := 5 |}.

Definition stopforumspam_request (ip : string) : request :=
  {| url := "https://api.stopforumspam.org/api?ip=" +:+ ip +:+ "&json";
     headers := []; params := []; timeout := 5 |}.

Definition blocklist_de_request (ip : string) : request :=
  {| url := "https://api.blocklist.de/api.php?ip=" +:+ ip;
     headers := []; params := []; timeout := 5 |}.

(** [needle in text], as a statement. *)
Definition is_substring (needle text : string) : Prop :=
  exists before after, text = before +:+ needle +:+ after.

(** A lookup, made in the given form, that neither the memo nor the timed
    cache can answer. *)
Definition uncached (form : call_form) (st : State) (ip : string) : Prop :=
  memo_lookup (memo st) (form, ip) = None /\ live_entry st ip = None.

(** ** Concrete situations used to run the model

    Every text in them is ASCII, so their [str_lower] is [ascii_lower]. *)

Definition ip_example : string := "203.0.113.5".

Definition world0 : World := {| now := 0; sent := []; log := [] |}.

Definition state0 : State := __init__ init_sources world0.

(** No API key; every provider answers 200 with nothing about the address. *)
Definition env_clean : Env :=
  {| environ := fun _ => None;
     net := fun _ => Some {| status_code := 200; text := ""; json := Some (PyDict []) |};
     latency := fun _ => 0;
     str_lower := ascii_lower |}.

(** No API key; StopForumSpam lists the address, seen five times. *)
Definition env_listed : Env :=
  {| environ := fun _ => None;
     net := fun _ => Some
       {| status_code := 200; text := "";
          json := Some (PyDict [("ip", PyDict [("appears", PyInt 1);
                                               ("frequency", PyInt 5)])]) |};
     latency := fun _ => 0;
     str_lower := ascii_lower |}.

(** An API key is configured and every request fails in transport. *)
Definition env_down : Env :=
  {| environ := fun _ => Some "k";
     net := fun _ => None;
     latency := fun _ => 0;
     str_lower := ascii_lower |}.

Definition hours (n : Z) : Z := n * 3600 * 1000000.

(** The state in which the loop starts on a miss: the lookup is logged. *)
Definition checking (st : State) (ip : string) : State :=
  set_world st (add_log (world st) (INFO, MsgChecking ip)).

(** An API key is configured; AbuseIPDB scores the address 85, StopForumSpam
    has seen it five times, blocklist.de reports three attacks. *)
Definition response_scored : Response :=
  {| status_code := 200; text := "Attacks: 3";
     json := Some (PyDict
       [("data", PyDict [("abuseConfidenceScore", PyInt 85)]);
        ("ip", PyDict [("appears", PyInt 1); ("frequency", PyInt 5)])]) |}.

Definition env_scored : Env :=
  {| environ := fun _ => Some "k"%string;
     net := fun _ => Some response_scored;
     latency := fun _ => 0;
     str_lower := ascii_lower |}.

(** No API key; StopForumSpam says the address appears, with frequency 0. *)
Definition env_zero : Env :=
  {| environ := fun _ => None;
     net := fun _ => Some
       {| status_code := 200; text := "";
          json := Some (PyDict [("ip", PyDict [("appears", PyInt 1);
                                               ("frequency", PyInt 0)])]) |};
     latency := fun _ => 0;
     str_lower := ascii_lower |}.

(** The adapters of a prefix of the source list were all called, one after
    the other, and none reported a block: each returned a non-blocking
    result or raised. [passes env ip items st st'] relates the state before
    the first call to the state after the last. *)
Inductive passes (env : Env) (ip : string) :
    list (string * adapter) -> State -> State -> Prop :=
| passes_nil st :
    passes env ip [] st st
| passes_not_blocked name (f : adapter) rest st c w st' :
    f env ip (world st) = (Ok (false, c), w) ->
    passes env ip rest (set_world st (add_log w (DEBUG, MsgNotFound ip name))) st' ->
    passes env ip ((name, f) :: rest) st st'
| passes_raised name (f : adapter) rest st e w st' :
    f env ip (world st) = (Raise e, w) ->
    passes env ip rest (set_world st (add_log w (ERROR, MsgError name ip e))) st' ->
    passes env ip ((name, f) :: rest) st st'.

(** A test double: an adapter that logs that it was called and returns a
    fixed result. *)
Definition stub (name : string) (result : bool * Z) : adapter :=
  fun _ ip => logger DEBUG (MsgCheckingSource name ip) ;; ret result.

(** Was the adapter [name] called, according to the log? *)
Definition consulted (name : string) (w : World) : bool :=
  existsb (fun r => match r with
                    | (_, MsgCheckingSource n _) => String.eqb n name
                    | _ => false
                    end) (log w).

(** The invariant of a verdict: a source exactly when blocked, and no
    confidence when not blocked. *)
Definition well_formed (v : Verdict) : Prop :=
  let '(blocked, source, confidence) := v in
  (source <> None <-> blocked = true) /\ (blocked = false -> confidence = 0).

Definition caches_well_formed (st : State) : Prop :=
  (forall ip v t, cache st !! ip = Some (v, t) -> well_formed v) /\
  (forall key v, In (key, v) (memo st) -> well_formed v).

(** The states a checker can be in: created by [__init__], then any sequence
    of calls of its two public methods, [is_blacklisted] in any form, the
    world changing in between. *)
Inductive reachable (sources : list (string * adapter)) : State -> Prop :=
| reachable_init w :
    reachable sources (__init__ sources w)
| reachable_is_blacklisted form env ip st r st' :
    reachable sources st ->
    is_blacklisted sources form env ip st = (r, st') ->
    reachable sources st'
| reachable_clear_cache st r st' :
    reachable sources st ->
    clear_cache st = (r, st') ->
    reachable sources st'
| reachable_world st w :
    reachable sources st ->
    reachable sources (set_world st w).

(** The world [w] after [dt] more time, the requests [rs] and the log
    records [ls]. *)
Definition shift (w : World) (dt : Z) (rs : list request)
    (ls : list (level * message)) : World :=
  {| now := now w + dt; sent := sent w ++ rs; log := log w ++ ls |}.

(** An action on the world that reads nothing from it: its result, the time
    it takes, the requests it sends and what it logs are the same from
    every world. *)
Definition uniform {A : Type} (m : M World A) : Prop :=
  exists r dt rs ls, forall w, m w = (r, shift w dt rs ls).

(** Two states that differ at most in what was logged. *)
Definition same_but_log (st1 st2 : State) : Prop :=
  cache st1 = cache st2 /\ memo st1 = memo st2 /\
  now (world st1) = now (world st2) /\ sent (world st1) = sent (world st2).

(** ** Further vocabulary *)

(** The requests a lookup of [ip] can send, in the order of the sources. *)
Definition lookup_requests (env : Env) (ip : string) : list request :=
  [ abuseipdb_request (default ""%string (environ env "ABUSEIPDB_API_KEY")) ip;
    stopforumspam_request ip;
    blocklist_de_request ip ].

(** [text] contains [needle] written in any mix of upper and lower case. *)
Definition is_substring_any_case (needle text : string) : Prop :=
  exists before middle after,
    text = before +:+ middle +:+ after /\ ascii_lower middle = needle.

(** The memo respects [maxsize] and has one entry per key, that is, per
    call form and address. *)
Definition memo_bounded (st : State) : Prop :=
  Z.of_nat (length (memo st)) <= maxsize /\ NoDup (map fst (memo st)).

(** The verdicts the three registered sources can produce. *)
Definition registered_verdict (v : Verdict) : Prop :=
  v = (false, None, 0) \/
  (exists c, v = (true, Some "abuseipdb"%string, c) /\ 75 < c) \/
  (exists c, v = (true, Some "stopforumspam"%string, c) /\ c <= 100) \/
  v = (true, Some "blocklist_de"%string, 80).

(** All verdicts held by the two caches satisfy [P]. *)
Definition cached_verdicts (P : Verdict -> Prop) (st : State) : Prop :=
  (forall ip v t, cache st !! ip = Some (v, t) -> P v) /\
  (forall key v, In (key, v) (memo st) -> P v).

(** The record by which a computed verdict is logged. *)
Definition verdict_record (ip : string) (v : Verdict) : level * message :=
  match v with
  | (true, Some source_name, confidence) =>
      (WARNING, MsgBlacklisted ip source_name confidence)
  | _ => (INFO, MsgNotBlacklisted ip)
  end.

(** A value on which [x > 75], [x > 0] and [min(100, x * 10)] raise. *)
Definition not_a_number (v : pyval) : Prop :=
  match v with
  | PyInt _ | PyBool _ => False
  | _ => True
  end.

(** A parsed body that is not a JSON object. *)
Definition not_an_object (v : pyval) : Prop :=
  match v with
  | PyDict _ => False
  | _ => True
  end.

(** The states a checker is in when every call of [is_blacklisted] is made
    in one and the same form. *)
Inductive reachable_in_form (sources : list (string * adapter))
    (form : call_form) : State -> Prop :=
| in_form_init w :
    reachable_in_form sources form (__init__ sources w)
| in_form_is_blacklisted env ip st r st' :
    reachable_in_form sources form st ->
    is_blacklisted sources form env ip st = (r, st') ->
    reachable_in_form sources form st'
| in_form_clear_cache st r st' :
    reachable_in_form sources form st ->
    clear_cache st = (r, st') ->
    reachable_in_form sources form st'
| in_form_world st w :
    reachable_in_form sources form st ->
    reachable_in_form sources form (set_world st w).

(** Every entry of the memo was made by a call in the form [form], and its
    verdict is the verdict that [self.cache] holds for the same address. *)
Definition memo_agrees_with_cache (form : call_form) (st : State) : Prop :=
  forall key v,
    In (key, v) (memo st) ->
    fst key = form /\ exists t, cache st !! snd key = Some (v, t).
(** * Properties *)

(** ** The aggregation loop, one adapter at a time *)

Lemma check_sources_nil env ip st :
  check_sources [] env ip st = (Ok (false, None, 0), clean_state st ip).
Proof. reflexivity. Qed.

Lemma check_sources_blocked name (f : adapter) rest env ip st c w :
  f env ip (world st) = (Ok (true, c), w) ->
  check_sources ((name, f) :: rest) env ip st
  = (Ok (true, Some name, c), blocked_state st w ip name c).
Proof.
  intros Hf. cbn [check_sources].
  unfold bind, try_except, lift. rewrite Hf. reflexivity.
Qed.

Lemma check_sources_not_blocked name (f : adapter) rest env ip st c w :
  f env ip (world st) = (Ok (false, c), w) ->
  check_sources ((name, f) :: rest) env ip st
  = check_sources rest env ip
      (set_world st (add_log w (DEBUG, MsgNotFound ip name))).
Proof.
  intros Hf. cbn [check_sources].
  unfold bind, try_except, lift. rewrite Hf. reflexivity.
Qed.

Lemma check_sources_raised name (f : adapter) rest env ip st e w :
  f env ip (world st) = (Raise e, w) ->
  check_sources ((name, f) :: rest) env ip st
  = check_sources rest env ip
      (set_world st (add_log w (ERROR, MsgError name ip e))).
Proof.
  intros Hf. cbn [check_sources].
  unfold bind, try_except, lift. rewrite Hf. reflexivity.
Qed.

(** The three ways one adapter call can end. *)
Lemma adapter_cases (f : adapter) env ip w :
  (exists c w', f env ip w = (Ok (true, c), w')) \/
  (exists c w', f env ip w = (Ok (false, c), w')) \/
  (exists e w', f env ip w = (Raise e, w')).
Proof.
  destruct (f env ip w) as [[[[] c] | e] w']; eauto.
Qed.

(** The loop always returns a verdict, never raises, and leaves the memo of
    the decorator alone. *)
Lemma check_sources_returns items env ip st :
  exists v st', check_sources items env ip st = (Ok v, st') /\ memo st' = memo st.
Proof.
  revert st. induction items as [| [name f] rest IH]; intros st.
  - rewrite check_sources_nil. eauto.
  - destruct (adapter_cases f env ip (world st))
      as [(c & w & Hf) | [(c & w & Hf) | (e & w & Hf)]].
    + rewrite (check_sources_blocked _ _ _ _ _ _ _ _ Hf). eauto.
    + rewrite (check_sources_not_blocked _ _ _ _ _ _ _ _ Hf).
      destruct (IH (set_world st (add_log w (DEBUG, MsgNotFound ip name))))
        as (v & st' & Hrun & Hm). eauto.
    + rewrite (check_sources_raised _ _ _ _ _ _ _ _ Hf).
      destruct (IH (set_world st (add_log w (ERROR, MsgError name ip e))))
        as (v & st' & Hrun & Hm). eauto.
Qed.

Lemma wrapped_hit sources env ip st v :
  live_entry st ip = Some v ->
  is_blacklisted_wrapped sources env ip st
  = (Ok v, set_world st (add_log (world st) (DEBUG, MsgCacheHit ip v))).
Proof.
  unfold live_entry, is_blacklisted_wrapped, bind, get.
  destruct (cache st !! ip) as [[cd ct] |]; [| discriminate].
  cbn. destruct (now (world st) - ct <? cache_duration); [| discriminate].
  intros [= ->]. reflexivity.
Qed.

Lemma wrapped_miss sources env ip st :
  live_entry st ip = None ->
  is_blacklisted_wrapped sources env ip st
  = check_sources sources env ip
      (set_world st (add_log (world st) (INFO, MsgChecking ip))).
Proof.
  unfold live_entry, is_blacklisted_wrapped, bind, get.
  destruct (cache st !! ip) as [[cd ct] |]; [| reflexivity].
  cbn. destruct (now (world st) - ct <? cache_duration); [discriminate |].
  reflexivity.
Qed.

Lemma wrapped_returns sources env ip st :
  exists v st',
    is_blacklisted_wrapped sources env ip st = (Ok v, st') /\ memo st' = memo st.
Proof.
  destruct (live_entry st ip) as [v |] eqn:Hl.
  - rewrite (wrapped_hit _ _ _ _ _ Hl). eauto.
  - rewrite (wrapped_miss _ _ _ _ Hl).
    destruct (check_sources_returns sources env ip
                (set_world st (add_log (world st) (INFO, MsgChecking ip))))
      as (v & st' & Hrun & Hm). eauto.
Qed.

(** ** The memo of the decorator *)

Lemma form_eqb_eq f1 f2 : form_eqb f1 f2 = true <-> f1 = f2.
Proof. destruct f1, f2; cbn; split; congruence. Qed.

Lemma key_eqb_eq k1 k2 : key_eqb k1 k2 = true <-> k1 = k2.
Proof.
  destruct k1 as [f1 ip1], k2 as [f2 ip2]. unfold key_eqb. cbn [fst snd].
  rewrite andb_true_iff, form_eqb_eq, String.eqb_eq. split.
  - intros [-> ->]. reflexivity.
  - intros [= -> ->]. split; reflexivity.
Qed.

Lemma key_eqb_refl k : key_eqb k k = true.
Proof. now apply key_eqb_eq. Qed.

Lemma memo_lookup_removelast m key :
  memo_lookup m key = None -> memo_lookup (removelast m) key = None.
Proof.
  induction m as [| [k v] m IH]; [reflexivity |].
  cbn [memo_lookup]. destruct (key_eqb key k) eqn:Hk; [discriminate |].
  intros Hm. destruct m as [| p m']; [reflexivity |].
  change (removelast ((k, v) :: p :: m')) with ((k, v) :: removelast (p :: m')).
  cbn [memo_lookup]. rewrite Hk. auto.
Qed.

Lemma memo_lookup_evict m key :
  memo_lookup m key = None -> memo_lookup (evict m) key = None.
Proof.
  intros Hm. unfold evict.
  destruct (maxsize <=? Z.of_nat (length m)); auto using memo_lookup_removelast.
Qed.


Lemma memo_lookup_remove m key : memo_lookup (memo_remove key m) key = None.
Proof.
  induction m as [| [k v] m IH]; [reflexivity |].
  cbn [memo_remove List.filter fst].
  destruct (key_eqb key k) eqn:Hk; cbn [negb]; [exact IH |].
  cbn [memo_lookup]. rewrite Hk. exact IH.
Qed.


Lemma lru_hit f form ip st v :
  memo_lookup (memo st) (form, ip) = Some v ->
  lru_cache f form ip st
  = (Ok v, set_memo st (((form, ip), v) :: memo_remove (form, ip) (memo st))).
Proof. intros Hm. unfold lru_cache. cbn zeta. rewrite Hm. reflexivity. Qed.

Lemma lru_miss f form ip st v st' :
  memo_lookup (memo st) (form, ip) = None ->
  f ip st = (Ok v, st') ->
  memo st' = memo st ->
  lru_cache f form ip st
  = (Ok v, set_memo st' (((form, ip), v) :: evict (memo st))).
Proof.
  intros Hm Hf Hst. unfold lru_cache. cbn zeta. rewrite Hm, Hf, Hst, Hm.
  reflexivity.
Qed.


(** Every call of the decorated method returns a verdict and leaves the
    entry for its key at the front of the memo. *)
Lemma is_blacklisted_returns sources form env ip st :
  exists v st' m,
    is_blacklisted sources form env ip st = (Ok v, st') /\
    memo st' = ((form, ip), v) :: m /\ memo_lookup m (form, ip) = None.
Proof.
  unfold is_blacklisted.
  destruct (memo_lookup (memo st) (form, ip)) as [v |] eqn:Hm.
  - rewrite (lru_hit _ _ _ _ _ Hm).
    exists v, (set_memo st (((form, ip), v) :: memo_remove (form, ip) (memo st))), (memo_remove (form, ip) (memo st)).
    split; [reflexivity |]. split; [reflexivity |]. apply memo_lookup_remove.
  - destruct (wrapped_returns sources env ip st) as (v & st' & Hrun & Hst).
    rewrite (lru_miss _ _ _ _ _ _ Hm Hrun Hst).
    exists v, (set_memo st' (((form, ip), v) :: evict (memo st))), (evict (memo st)).
    split; [reflexivity |]. split; [reflexivity |]. now apply memo_lookup_evict.
Qed.


(** ** The decorated method on a miss *)

Lemma is_blacklisted_uncached sources form env ip st v st' :
  uncached form st ip ->
  check_sources sources env ip (checking st ip) = (Ok v, st') ->
  is_blacklisted sources form env ip st
  = (Ok v, set_memo st' (((form, ip), v) :: evict (memo st))).
Proof.
  intros [Hm Hl] Hrun. unfold is_blacklisted.
  apply lru_miss; [exact Hm | |].
  - rewrite (wrapped_miss _ _ _ _ Hl). exact Hrun.
  - destruct (check_sources_returns sources env ip (checking st ip))
      as (v' & st'' & Hrun' & Hmemo).
    rewrite Hrun in Hrun'. injection Hrun' as _ <-. exact Hmemo.
Qed.


(** ** First match wins *)

Lemma check_sources_passes env ip before items st st1 :
  passes env ip before st st1 ->
  check_sources (before ++ items) env ip st = check_sources items env ip st1.
Proof.
  induction 1 as [st | name f rest st c w st' Hf _ IH | name f rest st e w st' Hf _ IH].
  - reflexivity.
  - change (((name, f) :: rest) ++ items) with ((name, f) :: (rest ++ items)).
    rewrite (check_sources_not_blocked _ _ _ _ _ _ _ _ Hf). exact IH.
  - change (((name, f) :: rest) ++ items) with ((name, f) :: (rest ++ items)).
    rewrite (check_sources_raised _ _ _ _ _ _ _ _ Hf). exact IH.
Qed.

Lemma first_match before name (f : adapter) after form env ip st st1 c w :
  uncached form st ip ->
  passes env ip before (checking st ip) st1 ->
  f env ip (world st1) = (Ok (true, c), w) ->
  is_blacklisted (before ++ (name, f) :: after) form env ip st
  = (Ok (true, Some name, c),
     set_memo (blocked_state st1 w ip name c)
       (((form, ip), (true, Some name, c)) :: evict (memo st))).
Proof.
  intros Hmiss Hpass Hf.
  apply is_blacklisted_uncached; [exact Hmiss |].
  rewrite (check_sources_passes _ _ _ _ _ _ Hpass).
  apply check_sources_blocked. exact Hf.
Qed.

(** An adapter that does not report a block is passed over; the caches are
    not touched. *)
Lemma check_sources_skip name (f : adapter) rest env ip st :
  (forall c, fst (f env ip (world st)) <> Ok (true, c)) ->
  exists w, check_sources ((name, f) :: rest) env ip st
            = check_sources rest env ip (set_world st w).
Proof.
  intros Hnb.
  destruct (adapter_cases f env ip (world st))
    as [(c & w & Hf) | [(c & w & Hf) | (e & w & Hf)]].
  - exfalso. apply (Hnb c). now rewrite Hf.
  - rewrite (check_sources_not_blocked _ _ _ _ _ _ _ _ Hf). eauto.
  - rewrite (check_sources_raised _ _ _ _ _ _ _ _ Hf). eauto.
Qed.

(** ** Verdicts are well formed *)

Lemma In_removelast {A : Type} (x : A) l : In x (removelast l) -> In x l.
Proof.
  induction l as [| a l IH]; [intros [] |].
  destruct l as [| b l']; [intros [] |].
  change (removelast (a :: b :: l')) with (a :: removelast (b :: l')).
  intros [-> | Hin]; [now left | right; auto].
Qed.

Lemma In_evict p m : In p (evict m) -> In p m.
Proof.
  unfold evict. destruct (maxsize <=? Z.of_nat (length m)); auto using In_removelast.
Qed.

Lemma In_memo_remove p key m : In p (memo_remove key m) -> In p m.
Proof. unfold memo_remove. intros H. apply List.filter_In in H. tauto. Qed.

Lemma memo_lookup_In m key v : memo_lookup m key = Some v -> In (key, v) m.
Proof.
  induction m as [| [k v'] m IH]; [discriminate |].
  cbn [memo_lookup]. destruct (key_eqb key k) eqn:Hk.
  - apply key_eqb_eq in Hk. intros [= ->]. subst. now left.
  - intros H. right. auto.
Qed.

Lemma well_formed_blocked name c : well_formed (true, Some name, c).
Proof. split; [split; [reflexivity | discriminate] | discriminate]. Qed.

Lemma well_formed_clean : well_formed (false, None, 0).
Proof. split; [split; [congruence | discriminate] | reflexivity]. Qed.

Lemma caches_well_formed_store st w ip v t :
  caches_well_formed st -> well_formed v ->
  caches_well_formed (set_world (set_cache st (<[ip := (v, t)]> (cache st))) w).
Proof.
  intros [Hc Hm] Hv. split; [| exact Hm].
  intros ip' v' t'. cbn [cache set_world set_cache].
  rewrite lookup_insert_Some. intros [[_ [= <- _]] | [_ Hl]]; [exact Hv |].
  exact (Hc _ _ _ Hl).
Qed.

Lemma caches_well_formed_world st w :
  caches_well_formed st -> caches_well_formed (set_world st w).
Proof. intros [Hc Hm]. split; assumption. Qed.

Lemma check_sources_well_formed items env ip st v st' :
  caches_well_formed st ->
  check_sources items env ip st = (Ok v, st') ->
  well_formed v /\ caches_well_formed st'.
Proof.
  revert st. induction items as [| [name f] rest IH]; intros st Hinv.
  - rewrite check_sources_nil. intros [= <- <-].
    split; [apply well_formed_clean |].
    apply caches_well_formed_store; [exact Hinv | apply well_formed_clean].
  - destruct (adapter_cases f env ip (world st))
      as [(c & w & Hf) | [(c & w & Hf) | (e & w & Hf)]].
    + rewrite (check_sources_blocked _ _ _ _ _ _ _ _ Hf). intros [= <- <-].
      split; [apply well_formed_blocked |].
      apply (caches_well_formed_store (set_world st w));
        [now apply caches_well_formed_world | apply well_formed_blocked].
    + rewrite (check_sources_not_blocked _ _ _ _ _ _ _ _ Hf).
      apply IH. now apply caches_well_formed_world.
    + rewrite (check_sources_raised _ _ _ _ _ _ _ _ Hf).
      apply IH. now apply caches_well_formed_world.
Qed.

Lemma live_entry_cached st ip v :
  live_entry st ip = Some v -> exists t, cache st !! ip = Some (v, t).
Proof.
  unfold live_entry. destruct (cache st !! ip) as [[cd ct] |]; [| discriminate].
  destruct (now (world st) - ct <? cache_duration); [| discriminate].
  intros [= ->]. eauto.
Qed.

Lemma wrapped_well_formed sources env ip st v st' :
  caches_well_formed st ->
  is_blacklisted_wrapped sources env ip st = (Ok v, st') ->
  well_formed v /\ caches_well_formed st'.
Proof.
  intros Hinv. destruct (live_entry st ip) as [v0 |] eqn:Hl.
  - rewrite (wrapped_hit _ _ _ _ _ Hl). intros [= <- <-].
    destruct (live_entry_cached _ _ _ Hl) as [t Ht].
    split; [exact (proj1 Hinv _ _ _ Ht) | now apply caches_well_formed_world].
  - rewrite (wrapped_miss _ _ _ _ Hl).
    apply check_sources_well_formed. now apply caches_well_formed_world.
Qed.

Lemma caches_well_formed_memo st m :
  caches_well_formed st ->
  (forall ip v, In (ip, v) m -> well_formed v) ->
  caches_well_formed (set_memo st m).
Proof. intros [Hc _] Hm. split; assumption. Qed.

Lemma is_blacklisted_well_formed sources form env ip st v st' :
  caches_well_formed st ->
  is_blacklisted sources form env ip st = (Ok v, st') ->
  well_formed v /\ caches_well_formed st'.
Proof.
  intros Hinv. unfold is_blacklisted.
  destruct (memo_lookup (memo st) (form, ip)) as [v0 |] eqn:Hm.
  - rewrite (lru_hit _ _ _ _ _ Hm). intros [= <- <-].
    assert (Hv : well_formed v0) by exact (proj2 Hinv _ _ (memo_lookup_In _ _ _ Hm)).
    split; [exact Hv |]. apply caches_well_formed_memo; [exact Hinv |].
    intros ip' v' [[= <- <-] | Hin]; [exact Hv |].
    exact (proj2 Hinv _ _ (In_memo_remove _ _ _ Hin)).
  - destruct (wrapped_returns sources env ip st) as (v1 & st1 & Hrun & Hst).
    rewrite (lru_miss _ _ _ _ _ _ Hm Hrun Hst). intros [= <- <-].
    destruct (wrapped_well_formed _ _ _ _ _ _ Hinv Hrun) as [Hv Hinv1].
    split; [exact Hv |]. apply caches_well_formed_memo; [exact Hinv1 |].
    intros ip' v' [[= <- <-] | Hin]; [exact Hv |].
    exact (proj2 Hinv _ _ (In_evict _ _ Hin)).
Qed.

Lemma reachable_well_formed sources st :
  reachable sources st -> caches_well_formed st.
Proof.
  induction 1 as [w | form env ip st r st' _ IH Hrun | st r st' _ IH Hrun | st w _ IH].
  - split; [intros ip v t | intros ip v []].
    cbn [cache __init__]. rewrite lookup_empty. discriminate.
  - destruct r as [v | e].
    + exact (proj2 (is_blacklisted_well_formed _ _ _ _ _ _ _ IH Hrun)).
    + destruct (is_blacklisted_returns sources form env ip st) as (v & st1 & m & Hok & _).
      rewrite Hok in Hrun. discriminate Hrun.
  - injection Hrun as _ <-. split; [intros ip v t | intros ip v []].
    cbn. rewrite lookup_empty. discriminate.
  - now apply caches_well_formed_world.
Qed.

(** ** The adapters, case by case *)

Ltac run_adapter :=
  unfold _check_abuseipdb, _check_stopforumspam, _check_blocklist_de,
    bind, logger, modify, requests_get, response_json, of_res, ret, raise;
  cbn beta iota zeta.

Lemma key_configured api_key :
  api_key <> ""%string -> py_not (Some api_key) = false.
Proof. intros Hk. cbn. now apply String.eqb_neq. Qed.

Lemma abuseipdb_skipped env ip w :
  py_not (environ env "ABUSEIPDB_API_KEY") = true ->
  _check_abuseipdb env ip w = (Ok (false, 0), add_log w (DEBUG, MsgNoApiKey)).
Proof. intros Hk. run_adapter. rewrite Hk. reflexivity. Qed.

Lemma abuseipdb_transport_failure env ip w api_key :
  environ env "ABUSEIPDB_API_KEY" = Some api_key -> api_key <> ""%string ->
  net env (abuseipdb_request api_key ip) = None ->
  fst (_check_abuseipdb env ip w) = Raise RequestException.
Proof.
  intros Henv Hk Hnet. run_adapter. rewrite Henv, (key_configured _ Hk).
  change (default ""%string (Some api_key)) with api_key.
  fold (abuseipdb_request api_key ip). rewrite Hnet. reflexivity.
Qed.

Lemma abuseipdb_answered env ip w api_key response :
  environ env "ABUSEIPDB_API_KEY" = Some api_key -> api_key <> ""%string ->
  net env (abuseipdb_request api_key ip) = Some response ->
  fst (_check_abuseipdb env ip w)
  = if status_code response =? 200 then
      match json response with
      | None => Raise JSONDecodeError
      | Some data =>
          match py_get data "data" (PyDict []) with
          | Raise e => Raise e
          | Ok inner =>
              match py_get inner "abuseConfidenceScore" (PyInt 0) with
              | Raise e => Raise e
              | Ok abuse_score =>
                  match py_num abuse_score with
                  | Raise e => Raise e
                  | Ok score => Ok (75 <? score, score)
                  end
              end
          end
      end
    else Ok (false, 0).
Proof.
  intros Henv Hk Hnet. run_adapter. rewrite Henv, (key_configured _ Hk).
  change (default ""%string (Some api_key)) with api_key.
  fold (abuseipdb_request api_key ip). rewrite Hnet.
  destruct (status_code response =? 200); [| reflexivity].
  destruct (json response) as [data |]; [| reflexivity].
  destruct (py_get data "data" (PyDict [])) as [inner | e]; [| reflexivity].
  destruct (py_get inner "abuseConfidenceScore" (PyInt 0)) as [score | e]; [| reflexivity].
  cbn. destruct (py_num score); reflexivity.
Qed.

Lemma stopforumspam_transport_failure env ip w :
  net env (stopforumspam_request ip) = None ->
  fst (_check_stopforumspam env ip w) = Raise RequestException.
Proof.
  intros Hnet. run_adapter. fold (stopforumspam_request ip).
  rewrite Hnet. reflexivity.
Qed.

Lemma stopforumspam_answered env ip w response :
  net env (stopforumspam_request ip) = Some response ->
  fst (_check_stopforumspam env ip w)
  = if status_code response =? 200 then
      match json response with
      | None => Raise JSONDecodeError
      | Some data =>
          match py_get data "ip" (PyDict []) with
          | Raise e => Raise e
          | Ok entry =>
              match py_get entry "appears" (PyInt 0) with
              | Raise e => Raise e
              | Ok appears =>
                  match py_num appears with
                  | Raise e => Raise e
                  | Ok n =>
                      if 0 <? n then
                        match py_get entry "frequency" (PyInt 0) with
                        | Raise e => Raise e
                        | Ok frequency =>
                            match py_num frequency with
                            | Raise e => Raise e
                            | Ok f => Ok (true, Z.min 100 (f * 10))
                            end
                        end
                      else Ok (false, 0)
                  end
              end
          end
      end
    else Ok (false, 0).
Proof.
  intros Hnet. run_adapter. fold (stopforumspam_request ip). rewrite Hnet.
  destruct (status_code response =? 200); [| reflexivity].
  destruct (json response) as [data |]; [| reflexivity].
  destruct (py_get data "ip" (PyDict [])) as [entry | e]; [| reflexivity].
  destruct (py_get entry "appears" (PyInt 0)) as [appears | e]; [| reflexivity].
  destruct (py_num appears) as [n | e]; [| reflexivity].
  destruct (0 <? n); [| reflexivity].
  destruct (py_get entry "frequency" (PyInt 0)) as [frequency | e]; [| reflexivity].
  destruct (py_num frequency); reflexivity.
Qed.

Lemma blocklist_de_transport_failure env ip w :
  net env (blocklist_de_request ip) = None ->
  fst (_check_blocklist_de env ip w) = Raise RequestException.
Proof.
  intros Hnet. run_adapter. fold (blocklist_de_request ip).
  rewrite Hnet. reflexivity.
Qed.

Lemma blocklist_de_answered env ip w response :
  net env (blocklist_de_request ip) = Some response ->
  fst (_check_blocklist_de env ip w)
  = if status_code response =? 200 then
      if contains "attacks:" (str_lower env (text response))
         && negb (contains "attacks: 0" (str_lower env (text response)))
      then Ok (true, 80) else Ok (false, 0)
    else Ok (false, 0).
Proof.
  intros Hnet. run_adapter. fold (blocklist_de_request ip). rewrite Hnet.
  destruct (status_code response =? 200); [| reflexivity].
  destruct (contains "attacks:" (str_lower env (text response))
            && negb (contains "attacks: 0" (str_lower env (text response)))); reflexivity.
Qed.

(** ** [needle in text] *)

Lemma prefix_spec needle text :
  String.prefix needle text = true <-> exists after, text = needle +:+ after.
Proof.
  revert text. induction needle as [| a needle IH]; intros text.
  - destruct text; cbn; split; eauto.
  - destruct text as [| b text].
    + cbn. split; [discriminate | intros [after H]; discriminate H].
    + cbn [String.prefix String.append]. destruct (ascii_dec a b) as [-> | Hne].
      * rewrite IH. split; intros [after H]; exists after.
        -- cbn. now rewrite H.
        -- cbn in H. now injection H.
      * split; [discriminate |].
        intros [after H]. cbn in H. injection H as H _. now destruct Hne.
Qed.

Lemma contains_spec needle text :
  contains needle text = true <-> is_substring needle text.
Proof.
  unfold is_substring. induction text as [| c text IH].
  - cbn [contains]. rewrite orb_false_r, prefix_spec. split.
    + intros [after H]. exists ""%string, after. exact H.
    + intros ([| b before] & after & H); [eauto | discriminate H].
  - cbn [contains]. rewrite orb_true_iff, prefix_spec, IH. split.
    + intros [[after H] | (before & after & H)].
      * exists ""%string, after. exact H.
      * exists (String c before), after. cbn. now rewrite H.
    + intros ([| b before] & after & H).
      * left. eauto.
      * right. injection H as _ H. eauto.
Qed.

(** ** The adapters read nothing from the world *)

Lemma shift_nothing w : shift w 0 [] [] = w.
Proof.
  destruct w as [t rs ls]. unfold shift. cbn.
  now rewrite Z.add_0_r, !app_nil_r.
Qed.

Lemma shift_shift w dt1 rs1 ls1 dt2 rs2 ls2 :
  shift (shift w dt1 rs1 ls1) dt2 rs2 ls2
  = shift w (dt1 + dt2) (rs1 ++ rs2) (ls1 ++ ls2).
Proof.
  unfold shift. cbn. now rewrite Z.add_assoc, !app_assoc.
Qed.

Lemma uniform_of_res {A : Type} (r : res A) : uniform (of_res r).
Proof.
  exists r, 0, [], []. intros w. now rewrite shift_nothing.
Qed.

Lemma uniform_ret {A : Type} (a : A) : uniform (ret a).
Proof. exact (uniform_of_res (Ok a)). Qed.

Lemma uniform_raise {A : Type} (e : exn) : uniform (raise (A := A) e).
Proof. exact (uniform_of_res (Raise e)). Qed.

Lemma uniform_logger lvl m : uniform (logger lvl m).
Proof.
  exists (Ok tt), 0, [], [(lvl, m)]. intros [t rs ls].
  unfold logger, modify, add_log, shift. cbn.
  now rewrite Z.add_0_r, app_nil_r.
Qed.

Lemma uniform_requests_get env r : uniform (requests_get env r).
Proof.
  unfold requests_get. destruct (net env r) as [response |].
  - exists (Ok response), (latency env r), [r], []. intros [t rs ls].
    unfold shift. cbn. now rewrite app_nil_r.
  - exists (Raise RequestException), (latency env r), [r], []. intros [t rs ls].
    unfold shift. cbn. now rewrite app_nil_r.
Qed.

Lemma uniform_response_json response : uniform (response_json response).
Proof.
  unfold response_json.
  destruct (json response); [apply uniform_ret | apply uniform_raise].
Qed.

Lemma uniform_bind {A B : Type} (m : M World A) (k : A -> M World B) :
  uniform m -> (forall a, uniform (k a)) -> uniform (bind m k).
Proof.
  intros (r & dt & rs & ls & Hm) Hk. destruct r as [a | e].
  - destruct (Hk a) as (r' & dt' & rs' & ls' & Hka).
    exists r', (dt + dt'), (rs ++ rs'), (ls ++ ls'). intros w.
    unfold bind. rewrite Hm, Hka. now rewrite shift_shift.
  - exists (Raise e), dt, rs, ls. intros w. unfold bind. now rewrite Hm.
Qed.

Ltac uniform_step :=
  first
    [ apply uniform_ret | apply uniform_raise | apply uniform_of_res
    | apply uniform_logger | apply uniform_requests_get
    | apply uniform_response_json
    | apply uniform_bind; [| intros ?]
    | match goal with
      | |- uniform (if ?b then _ else _) => destruct b
      end ].


Lemma uniform_stopforumspam env ip : uniform (_check_stopforumspam env ip).
Proof. unfold _check_stopforumspam. cbn zeta. repeat uniform_step. Qed.

Lemma uniform_blocklist_de env ip : uniform (_check_blocklist_de env ip).
Proof. unfold _check_blocklist_de. cbn zeta. repeat uniform_step. Qed.

(** ** Runs that differ only in the log *)

Lemma same_but_log_refl st : same_but_log st st.
Proof. repeat split. Qed.

Lemma same_but_log_shift st1 st2 dt rs ls1 ls2 :
  same_but_log st1 st2 ->
  same_but_log (set_world st1 (shift (world st1) dt rs ls1))
               (set_world st2 (shift (world st2) dt rs ls2)).
Proof.
  intros (Hc & Hm & Hn & Hs). unfold same_but_log. cbn.
  now rewrite Hc, Hm, Hn, Hs.
Qed.

Lemma add_log_shift w r : add_log w r = shift w 0 [] [r].
Proof.
  destruct w as [t rs ls]. unfold add_log, shift. cbn.
  now rewrite Z.add_0_r, app_nil_r.
Qed.

Lemma same_but_log_add_log st1 st2 r1 r2 :
  same_but_log st1 st2 ->
  same_but_log (set_world st1 (add_log (world st1) r1))
               (set_world st2 (add_log (world st2) r2)).
Proof. rewrite !add_log_shift. apply same_but_log_shift. Qed.

Lemma same_but_log_store st1 st2 ip v :
  same_but_log st1 st2 ->
  same_but_log
    (set_cache st1 (<[ip := (v, now (world st1))]> (cache st1)))
    (set_cache st2 (<[ip := (v, now (world st2))]> (cache st2))).
Proof.
  intros (Hc & Hm & Hn & Hs). unfold same_but_log. cbn.
  now rewrite Hc, Hm, Hn, Hs.
Qed.

Lemma check_sources_same_but_log items env ip st1 st2 :
  Forall (fun p : string * adapter => uniform (snd p env ip)) items ->
  same_but_log st1 st2 ->
  fst (check_sources items env ip st1) = fst (check_sources items env ip st2) /\
  same_but_log (snd (check_sources items env ip st1))
               (snd (check_sources items env ip st2)).
Proof.
  intros Hall. revert st1 st2.
  induction Hall as [| [name f] rest (r & dt & rs & ls & Hf) _ IH]; intros st1 st2 Hst.
  - rewrite !check_sources_nil. split; [reflexivity |]. unfold clean_state.
    apply (same_but_log_add_log
             (set_cache st1 (<[ip := ((false, None, 0), now (world st1))]> (cache st1)))
             (set_cache st2 (<[ip := ((false, None, 0), now (world st2))]> (cache st2)))).
    now apply same_but_log_store.
  - cbn [snd] in Hf.
    pose proof (same_but_log_shift st1 st2 dt rs ls ls Hst) as Hsh.
    destruct r as [[[] c] | e].
    + rewrite (check_sources_blocked _ _ _ _ _ _ _ _ (Hf (world st1))),
              (check_sources_blocked _ _ _ _ _ _ _ _ (Hf (world st2))).
      split; [reflexivity |]. unfold blocked_state.
      pose proof (same_but_log_store _ _ ip (true, Some name, c) Hsh) as Hstore.
      exact (same_but_log_add_log _ _ _ _ Hstore).
    + rewrite (check_sources_not_blocked _ _ _ _ _ _ _ _ (Hf (world st1))),
              (check_sources_not_blocked _ _ _ _ _ _ _ _ (Hf (world st2))).
      apply IH. exact (same_but_log_add_log _ _ _ _ Hsh).
    + rewrite (check_sources_raised _ _ _ _ _ _ _ _ (Hf (world st1))),
              (check_sources_raised _ _ _ _ _ _ _ _ (Hf (world st2))).
      apply IH. exact (same_but_log_add_log _ _ _ _ Hsh).
Qed.

Lemma same_but_log_memo st1 st2 m :
  same_but_log st1 st2 -> same_but_log (set_memo st1 m) (set_memo st2 m).
Proof. intros (Hc & _ & Hn & Hs). repeat split; assumption. Qed.

(** Two source lists whose loops agree up to the log give decorated methods
    that agree up to the log. *)
Lemma is_blacklisted_same_but_log sources1 sources2 form env ip st :
  (fst (check_sources sources1 env ip (checking st ip))
   = fst (check_sources sources2 env ip (checking st ip)) /\
   same_but_log (snd (check_sources sources1 env ip (checking st ip)))
                (snd (check_sources sources2 env ip (checking st ip)))) ->
  fst (is_blacklisted sources1 form env ip st) = fst (is_blacklisted sources2 form env ip st) /\
  same_but_log (snd (is_blacklisted sources1 form env ip st))
               (snd (is_blacklisted sources2 form env ip st)).
Proof.
  intros [Hr Hs]. unfold is_blacklisted.
  destruct (memo_lookup (memo st) (form, ip)) as [v |] eqn:Hm.
  - rewrite !(lru_hit _ _ _ _ _ Hm). split; [reflexivity | apply same_but_log_refl].
  - destruct (live_entry st ip) as [v |] eqn:Hl.
    + pose proof (wrapped_hit sources1 env ip st v Hl) as H1.
      pose proof (wrapped_hit sources2 env ip st v Hl) as H2.
      rewrite (lru_miss _ _ _ _ _ _ Hm H1 eq_refl), (lru_miss _ _ _ _ _ _ Hm H2 eq_refl).
      split; [reflexivity | apply same_but_log_refl].
    + destruct (check_sources_returns sources1 env ip (checking st ip))
        as (v1 & st1 & Hrun1 & _).
      destruct (check_sources_returns sources2 env ip (checking st ip))
        as (v2 & st2 & Hrun2 & _).
      rewrite Hrun1, Hrun2 in Hr, Hs. cbn [fst snd] in Hr, Hs.
      injection Hr as <-.
      fold (is_blacklisted sources1 form env ip st) (is_blacklisted sources2 form env ip st).
      rewrite (is_blacklisted_uncached _ _ _ _ _ _ _ (conj Hm Hl) Hrun1),
              (is_blacklisted_uncached _ _ _ _ _ _ _ (conj Hm Hl) Hrun2).
      split; [reflexivity | now apply same_but_log_memo].
Qed.

(** * The claims *)

(** C1 (the code departs from it). The claim: a call made more than 24 hours
    after the verdict of an address was stored queries the adapters again.
    In the code the [lru_cache] decorator answers first and never expires:
    after a clean verdict at time 0, a call made in the same form 25 hours
    later, when StopForumSpam lists the address, returns the old verdict and
    leaves the state as it was (no request sent, nothing logged), although
    the entry of the timed cache is stale and the undecorated body would
    have returned (True, "stopforumspam", 50). *)
Theorem C1_stale_verdict_served_from_memo :
  forall form,
  exists st1,
    is_blacklisted init_sources form env_clean ip_example state0
      = (Ok (false, None, 0), st1) /\
    let st2 := advance (hours 25) st1 in
    live_entry st2 ip_example = None /\
    is_blacklisted init_sources form env_listed ip_example st2
      = (Ok (false, None, 0), st2) /\
    fst (is_blacklisted_wrapped init_sources env_listed ip_example st2)
      = Ok (true, Some "stopforumspam", 50) /\
    sent (world (snd (is_blacklisted_wrapped init_sources env_listed ip_example st2)))
      = sent (world st2) ++ [stopforumspam_request ip_example].
Proof.
  intros form.
  exists (snd (is_blacklisted init_sources form env_clean ip_example state0)).
  destruct form; vm_compute; repeat split; reflexivity.
Qed.






(** C2 (amended). [clear_cache] removes every cached entry, from the timed
    cache and from the memo of the decorator, and returns None; the number
    of entries the timed cache held is written to the log, not returned. *)
Theorem C2_clear_cache_empties_and_returns_none st :
  clear_cache st
  = (Ok PyNone,
     {| cache := ∅; memo := [];
        world := add_log (world st)
                   (INFO, MsgCacheCleared (Z.of_nat (size (cache st)))) |}).
Proof. reflexivity. Qed.

(** C2 as stated fails: with one cached entry, [clear_cache] returns None
    and not the integer 1. *)
Lemma C2_clear_cache_returns_no_count :
  let st := snd (is_blacklisted init_sources Positional env_clean ip_example state0) in
  size (cache st) = 1%nat /\
  fst (clear_cache st) = Ok PyNone /\
  fst (clear_cache st) <> Ok (PyInt (Z.of_nat (size (cache st)))).
Proof.
  vm_compute. repeat split; try reflexivity. discriminate.
Qed.

(** C3 (amended). The check functions contain no handler of their own: a
    transport failure or timeout ([requests.get] raises) and an unparseable
    body of a 200 response ([response.json()] raises) leave the adapter as
    an exception. The exception is caught where [is_blacklisted] calls the
    adapter: it is logged and the loop goes on with the next adapter, so no
    failing provider aborts the aggregation. A response whose status is not
    200 is turned into the non-blocking, zero-confidence result
    (False, 0) inside the adapter. *)
Theorem C3_adapter_failures_are_caught_by_the_caller :
  (* a transport failure raises out of each adapter *)
  (forall env ip w api_key,
     environ env "ABUSEIPDB_API_KEY" = Some api_key -> api_key <> ""%string ->
     net env (abuseipdb_request api_key ip) = None ->
     fst (_check_abuseipdb env ip w) = Raise RequestException) /\
  (forall env ip w,
     net env (stopforumspam_request ip) = None ->
     fst (_check_stopforumspam env ip w) = Raise RequestException) /\
  (forall env ip w,
     net env (blocklist_de_request ip) = None ->
     fst (_check_blocklist_de env ip w) = Raise RequestException) /\
  (* so does a 200 response whose body is not JSON *)
  (forall env ip w api_key response,
     environ env "ABUSEIPDB_API_KEY" = Some api_key -> api_key <> ""%string ->
     net env (abuseipdb_request api_key ip) = Some response ->
     status_code response = 200 -> json response = None ->
     fst (_check_abuseipdb env ip w) = Raise JSONDecodeError) /\
  (forall env ip w response,
     net env (stopforumspam_request ip) = Some response ->
     status_code response = 200 -> json response = None ->
     fst (_check_stopforumspam env ip w) = Raise JSONDecodeError) /\
  (* a status other than 200 is handled inside the adapter *)
  (forall env ip w api_key response,
     environ env "ABUSEIPDB_API_KEY" = Some api_key -> api_key <> ""%string ->
     net env (abuseipdb_request api_key ip) = Some response ->
     status_code response <> 200 ->
     fst (_check_abuseipdb env ip w) = Ok (false, 0)) /\
  (forall env ip w response,
     net env (stopforumspam_request ip) = Some response ->
     status_code response <> 200 ->
     fst (_check_stopforumspam env ip w) = Ok (false, 0)) /\
  (forall env ip w response,
     net env (blocklist_de_request ip) = Some response ->
     status_code response <> 200 ->
     fst (_check_blocklist_de env ip w) = Ok (false, 0)) /\
  (* whatever an adapter raises is caught at its call in the loop, which
     continues with the remaining adapters *)
  (forall name (f : adapter) rest env ip st e w,
     f env ip (world st) = (Raise e, w) ->
     check_sources ((name, f) :: rest) env ip st
     = check_sources rest env ip
         (set_world st (add_log w (ERROR, MsgError name ip e)))) /\
  (* and the caller of is_blacklisted always gets a verdict *)
  (forall sources form env ip st,
     exists v st', is_blacklisted sources form env ip st = (Ok v, st')).
Proof.
  repeat apply conj.
  - exact abuseipdb_transport_failure.
  - exact stopforumspam_transport_failure.
  - exact blocklist_de_transport_failure.
  - intros env ip w api_key response Henv Hk Hnet Hs Hj.
    rewrite (abuseipdb_answered _ _ _ _ _ Henv Hk Hnet), Hs, Hj. reflexivity.
  - intros env ip w response Hnet Hs Hj.
    rewrite (stopforumspam_answered _ _ _ _ Hnet), Hs, Hj. reflexivity.
  - intros env ip w api_key response Henv Hk Hnet Hs.
    rewrite (abuseipdb_answered _ _ _ _ _ Henv Hk Hnet).
    apply Z.eqb_neq in Hs. now rewrite Hs.
  - intros env ip w response Hnet Hs.
    rewrite (stopforumspam_answered _ _ _ _ Hnet).
    apply Z.eqb_neq in Hs. now rewrite Hs.
  - intros env ip w response Hnet Hs.
    rewrite (blocklist_de_answered _ _ _ _ Hnet).
    apply Z.eqb_neq in Hs. now rewrite Hs.
  - exact check_sources_raised.
  - intros sources form env ip st.
    destruct (is_blacklisted_returns sources form env ip st) as (v & st' & m & Hrun & _).
    eauto.
Qed.

Lemma C3_adapter_failures_are_caught_by_the_caller_witness :
  net env_down (stopforumspam_request ip_example) = None /\
  fst (_check_stopforumspam env_down ip_example world0) = Raise RequestException.
Proof.
  split; [reflexivity |].
  apply (proj1 (proj2 C3_adapter_failures_are_caught_by_the_caller)).
  reflexivity.
Defined.

(** C3 as stated fails: when the request fails in transport the
    StopForumSpam adapter raises instead of returning a result. *)
Lemma C3_adapter_raises_on_transport_failure :
  fst (_check_stopforumspam env_down ip_example world0) = Raise RequestException /\
  ~ (forall (f : adapter) env ip w,
       In f (map snd init_sources) -> exists r w', f env ip w = (Ok r, w')).
Proof.
  split; [reflexivity |].
  intros H.
  destruct (H _check_stopforumspam env_down ip_example world0) as (r & w' & Hr).
  - right. left. reflexivity.
  - vm_compute in Hr. discriminate Hr.
Qed.

(** C8. With a 200 response from the provider: the AbuseIPDB adapter reports
    blocked exactly when the score is above 75, with the score as
    confidence; the StopForumSpam adapter, for an address that appears,
    reports confidence min(100, frequency * 10); the blocklist.de adapter
    reports blocked, with confidence 80, exactly when the address is
    listed, that is, when the lower-cased text contains "attacks:" and does
    not contain "attacks: 0", and reports (False, 0) otherwise. *)
Theorem C8_thresholds_and_confidence :
  (forall env ip w api_key response data inner score,
     environ env "ABUSEIPDB_API_KEY" = Some api_key -> api_key <> ""%string ->
     net env (abuseipdb_request api_key ip) = Some response ->
     status_code response = 200 -> json response = Some data ->
     py_get data "data" (PyDict []) = Ok inner ->
     py_get inner "abuseConfidenceScore" (PyInt 0) = Ok (PyInt score) ->
     exists blocked,
       fst (_check_abuseipdb env ip w) = Ok (blocked, score) /\
       (blocked = true <-> 75 < score)) /\
  (forall env ip w response data entry n frequency,
     net env (stopforumspam_request ip) = Some response ->
     status_code response = 200 -> json response = Some data ->
     py_get data "ip" (PyDict []) = Ok entry ->
     py_get entry "appears" (PyInt 0) = Ok (PyInt n) -> 0 < n ->
     py_get entry "frequency" (PyInt 0) = Ok (PyInt frequency) ->
     fst (_check_stopforumspam env ip w)
     = Ok (true, Z.min 100 (frequency * 10))) /\
  (forall env ip w response,
     net env (blocklist_de_request ip) = Some response ->
     status_code response = 200 ->
     (fst (_check_blocklist_de env ip w) = Ok (true, 80) <->
      is_substring "attacks:" (str_lower env (text response)) /\
      ~ is_substring "attacks: 0" (str_lower env (text response))) /\
     (fst (_check_blocklist_de env ip w) = Ok (true, 80) \/
      fst (_check_blocklist_de env ip w) = Ok (false, 0))).
Proof.
  repeat apply conj.
  - intros env ip w api_key response data inner score Henv Hk Hnet Hs Hj Hd Hsc.
    exists (75 <? score). split; [| apply Z.ltb_lt].
    rewrite (abuseipdb_answered _ _ _ _ _ Henv Hk Hnet), Hs, Hj, Hd, Hsc.
    reflexivity.
  - intros env ip w response data entry n frequency Hnet Hs Hj Hd Ha Hn Hf.
    rewrite (stopforumspam_answered _ _ _ _ Hnet), Hs, Hj, Hd, Ha, Hf.
    cbn. apply Z.ltb_lt in Hn. now rewrite Hn.
  - intros env ip w response Hnet Hs.
    rewrite (blocklist_de_answered _ _ _ _ Hnet), Hs. cbn [Z.eqb Pos.eqb].
    rewrite <- !contains_spec.
    destruct (contains "attacks:" (str_lower env (text response)));
      destruct (contains "attacks: 0" (str_lower env (text response))); cbn;
      (split;
       [ split;
         [ intros H; first [discriminate H | split; [reflexivity | discriminate]]
         | intros [H1 H2];
           first [reflexivity | discriminate H1 | exfalso; apply H2; reflexivity] ]
       | auto ]).
Qed.

Lemma C8_thresholds_and_confidence_witness :
  (exists blocked,
     fst (_check_abuseipdb env_scored ip_example world0) = Ok (blocked, 85) /\
     (blocked = true <-> 75 < 85)) /\
  fst (_check_stopforumspam env_scored ip_example world0) = Ok (true, 50) /\
  is_substring "attacks:" (str_lower env_scored (text response_scored)) /\
  ~ is_substring "attacks: 0" (str_lower env_scored (text response_scored)) /\
  fst (_check_blocklist_de env_scored ip_example world0) = Ok (true, 80).
Proof.
  destruct C8_thresholds_and_confidence as (Ha & Hs & Hb).
  assert (Hin : is_substring "attacks:" (str_lower env_scored (text response_scored)))
    by (exists ""%string, " 3"%string; reflexivity).
  assert (Hout : ~ is_substring "attacks: 0"
                     (str_lower env_scored (text response_scored))).
  { intros H. apply contains_spec in H. discriminate H. }
  split; [| split].
  - eapply (Ha env_scored ip_example world0 "k"%string response_scored);
      [reflexivity | discriminate | reflexivity | reflexivity | reflexivity
      | reflexivity | reflexivity].
  - eapply (Hs env_scored ip_example world0 response_scored _ _ 1 5);
      [reflexivity | reflexivity | reflexivity | reflexivity | reflexivity
      | reflexivity | reflexivity].
  - split; [exact Hin |]. split; [exact Hout |].
    apply (proj1 (Hb env_scored ip_example world0 response_scored eq_refl eq_refl)).
    split; [exact Hin | exact Hout].
Defined.

(** C4. [self.sources] is iterated in the order abuseipdb, stopforumspam,
    blocklist_de, and the verdict comes from the first adapter that reports
    a block: when the adapters before it did not block, the call returns
    (True, its name, its confidence), and neither the result nor the state
    after the call depends on the adapters that come later, which are
    therefore not called. In particular with A non-blocking, B blocking
    with confidence 60 and any C, the result is (True, "B", 60). *)
Theorem C4_first_match_wins :
  map fst init_sources
    = ["abuseipdb"; "stopforumspam"; "blocklist_de"]%string /\
  (forall before name (f : adapter) after form env ip st st1 c w,
     uncached form st ip ->
     passes env ip before (checking st ip) st1 ->
     f env ip (world st1) = (Ok (true, c), w) ->
     is_blacklisted (before ++ (name, f) :: after) form env ip st
     = (Ok (true, Some name, c),
        set_memo (blocked_state st1 w ip name c)
          (((form, ip), (true, Some name, c)) :: evict (memo st)))) /\
  (forall (A B C : adapter) form env ip st ca wa wb,
     uncached form st ip ->
     A env ip (world (checking st ip)) = (Ok (false, ca), wa) ->
     B env ip (add_log wa (DEBUG, MsgNotFound ip "A")) = (Ok (true, 60), wb) ->
     is_blacklisted [("A", A); ("B", B); ("C", C)]%string form env ip st
     = (Ok (true, Some "B"%string, 60),
        set_memo
          (blocked_state
             (set_world (checking st ip) (add_log wa (DEBUG, MsgNotFound ip "A")))
             wb ip "B" 60)
          (((form, ip), (true, Some "B"%string, 60)) :: evict (memo st)))).
Proof.
  split; [reflexivity |]. split; [exact first_match |].
  intros A B C form env ip st ca wa wb Hmiss HA HB.
  apply (first_match [("A"%string, A)] "B" B [("C"%string, C)] form env ip st
           (set_world (checking st ip) (add_log wa (DEBUG, MsgNotFound ip "A")))
           60 wb Hmiss).
  - eapply passes_not_blocked; [exact HA | apply passes_nil].
  - exact HB.
Qed.

Lemma C4_first_match_wins_witness :
  uncached Positional state0 ip_example /\
  exists st',
    is_blacklisted
      [("A", stub "A" (false, 0)); ("B", stub "B" (true, 60));
       ("C", stub "C" (true, 90))]%string Positional env_clean ip_example state0
    = (Ok (true, Some "B"%string, 60), st') /\
    consulted "A" (world st') = true /\
    consulted "B" (world st') = true /\
    consulted "C" (world st') = false.
Proof.
  assert (Hmiss : uncached Positional state0 ip_example) by (split; reflexivity).
  split; [exact Hmiss |].
  eexists. split.
  - exact (proj2 (proj2 C4_first_match_wins)
             (stub "A" (false, 0)) (stub "B" (true, 60)) (stub "C" (true, 90))
             Positional env_clean ip_example state0 _ _ _ Hmiss eq_refl eq_refl).
  - repeat split; reflexivity.
Defined.

(** C5. Every verdict [is_blacklisted] returns, in any state the checker can
    reach, has a source exactly when it is blocked, and confidence 0 when it
    is not blocked. *)
Theorem C5_verdict_invariant sources form env ip st blocked source confidence st' :
  reachable sources st ->
  is_blacklisted sources form env ip st = (Ok (blocked, source, confidence), st') ->
  (source <> None <-> blocked = true) /\ (blocked = false -> confidence = 0).
Proof.
  intros Hreach Hrun.
  exact (proj1 (is_blacklisted_well_formed _ _ _ _ _ _ _
                  (reachable_well_formed _ _ Hreach) Hrun)).
Qed.

Lemma C5_verdict_invariant_witness :
  reachable init_sources state0 /\
  is_blacklisted init_sources Positional env_scored ip_example state0
    = (Ok (true, Some "abuseipdb"%string, 85),
       snd (is_blacklisted init_sources Positional env_scored ip_example state0)) /\
  ((Some "abuseipdb"%string <> None <-> true = true) /\ (true = false -> 85 = 0)).
Proof.
  assert (Hreach : reachable init_sources state0) by apply reachable_init.
  assert (Hrun : is_blacklisted init_sources Positional env_scored ip_example state0
                 = (Ok (true, Some "abuseipdb"%string, 85),
                    snd (is_blacklisted init_sources Positional env_scored ip_example state0)))
    by (vm_compute; reflexivity).
  split; [exact Hreach |]. split; [exact Hrun |].
  exact (C5_verdict_invariant init_sources Positional env_scored ip_example state0
           _ _ _ _ Hreach Hrun).
Defined.

(** C10. A blocking verdict can carry confidence 0: when StopForumSpam
    answers that the address appears (appears > 0) with frequency 0, or
    without a frequency, its adapter returns (True, 0); and when AbuseIPDB
    does not block, the public result is (True, "stopforumspam", 0). *)
Theorem C10_blocked_with_zero_confidence :
  (forall env ip w response d entry n,
     net env (stopforumspam_request ip) = Some response ->
     status_code response = 200 ->
     json response = Some (PyDict d) ->
     dict_lookup d "ip" = Some (PyDict entry) ->
     dict_lookup entry "appears" = Some (PyInt n) -> 0 < n ->
     dict_lookup entry "frequency" = Some (PyInt 0) \/
     dict_lookup entry "frequency" = None ->
     fst (_check_stopforumspam env ip w) = Ok (true, 0)) /\
  (forall form env ip st,
     (forall w, fst (_check_stopforumspam env ip w) = Ok (true, 0)) ->
     (forall w c, fst (_check_abuseipdb env ip w) <> Ok (true, c)) ->
     uncached form st ip ->
     fst (is_blacklisted init_sources form env ip st)
     = Ok (true, Some "stopforumspam"%string, 0)) /\
  fst (is_blacklisted init_sources Positional env_zero ip_example state0)
  = Ok (true, Some "stopforumspam"%string, 0).
Proof.
  repeat apply conj.
  - intros env ip w response d entry n Hnet Hs Hj Hip Ha Hn Hf.
    rewrite (stopforumspam_answered _ _ _ _ Hnet), Hs, Hj.
    cbn [Z.eqb Pos.eqb py_get]. rewrite Hip. cbn [py_get]. rewrite Ha.
    cbn [py_num]. apply Z.ltb_lt in Hn. rewrite Hn.
    destruct Hf as [-> | ->]; reflexivity.
  - intros form env ip st Hsfs Habuse Hmiss.
    destruct (check_sources_skip "abuseipdb" _check_abuseipdb (tl init_sources)
                env ip (checking st ip) (Habuse _)) as (w & Hskip).
    specialize (Hsfs (world (set_world (checking st ip) w))).
    destruct (_check_stopforumspam env ip (world (set_world (checking st ip) w)))
      as [r w'] eqn:Hrun.
    cbn [fst] in Hsfs. subst r.
    erewrite is_blacklisted_uncached; [reflexivity | exact Hmiss |].
    change init_sources with (("abuseipdb"%string, _check_abuseipdb) :: tl init_sources).
    rewrite Hskip. apply check_sources_blocked. exact Hrun.
  - vm_compute. reflexivity.
Qed.

Lemma C10_blocked_with_zero_confidence_witness :
  net env_zero (stopforumspam_request ip_example)
    = Some {| status_code := 200; text := "";
              json := Some (PyDict [("ip", PyDict [("appears", PyInt 1);
                                                   ("frequency", PyInt 0)])]) |} /\
  0 < 1 /\
  fst (_check_stopforumspam env_zero ip_example world0) = Ok (true, 0).
Proof.
  split; [reflexivity |]. split; [lia |].
  eapply (proj1 C10_blocked_with_zero_confidence env_zero ip_example world0 _ _ _ 1);
    [reflexivity | reflexivity | reflexivity | reflexivity | reflexivity | lia
    | left; reflexivity].
Defined.

(** C7. When ABUSEIPDB_API_KEY is absent from the environment, the AbuseIPDB
    adapter returns (False, 0) at once, having sent no request (it only logs
    that it is skipped); and [is_blacklisted] gives the verdict that the
    checker with the two remaining adapters alone gives, with the same
    requests sent, the same clock and the same caches afterwards. *)
Theorem C7_missing_api_key env ip :
  environ env "ABUSEIPDB_API_KEY" = None ->
  (forall w,
     _check_abuseipdb env ip w = (Ok (false, 0), add_log w (DEBUG, MsgNoApiKey))) /\
  (forall w, sent (snd (_check_abuseipdb env ip w)) = sent w) /\
  (forall form st,
     let remaining := [("stopforumspam", _check_stopforumspam);
                       ("blocklist_de", _check_blocklist_de)]%string in
     fst (is_blacklisted init_sources form env ip st)
     = fst (is_blacklisted remaining form env ip st) /\
     same_but_log (snd (is_blacklisted init_sources form env ip st))
                  (snd (is_blacklisted remaining form env ip st))).
Proof.
  intros Hkey.
  assert (Hskip : forall w,
            _check_abuseipdb env ip w = (Ok (false, 0), add_log w (DEBUG, MsgNoApiKey))).
  { intros w. apply abuseipdb_skipped. now rewrite Hkey. }
  split; [exact Hskip |]. split.
  - intros w. rewrite Hskip. reflexivity.
  - intros form st remaining. apply is_blacklisted_same_but_log.
    change init_sources with (("abuseipdb"%string, _check_abuseipdb) :: remaining).
    rewrite (check_sources_not_blocked _ _ _ _ _ _ _ _ (Hskip (world (checking st ip)))).
    apply check_sources_same_but_log.
    + repeat constructor;
        [apply uniform_stopforumspam | apply uniform_blocklist_de].
    + repeat split.
Qed.

Lemma C7_missing_api_key_witness :
  environ env_listed "ABUSEIPDB_API_KEY" = None /\
  _check_abuseipdb env_listed ip_example world0
    = (Ok (false, 0), add_log world0 (DEBUG, MsgNoApiKey)) /\
  fst (is_blacklisted init_sources Positional env_listed ip_example state0)
    = fst (is_blacklisted
             [("stopforumspam", _check_stopforumspam);
              ("blocklist_de", _check_blocklist_de)]%string
             Positional env_listed ip_example state0).
Proof.
  assert (Hkey : environ env_listed "ABUSEIPDB_API_KEY" = None) by reflexivity.
  split; [exact Hkey |].
  destruct (C7_missing_api_key env_listed ip_example Hkey) as (Hskip & _ & Hrest).
  split; [exact (Hskip world0) | exact (proj1 (Hrest Positional state0))].
Defined.

(** * Further properties of the checker *)

(** ** What a lookup does to [self.cache] *)

(** The loop stores the verdict it returns under the address, with the time
    at which it ends, and changes nothing else in the timed cache. *)
Lemma check_sources_cache items env ip st v st' :
  check_sources items env ip st = (Ok v, st') ->
  cache st' = <[ip := (v, now (world st'))]> (cache st).
Proof.
  revert st. induction items as [| [name f] rest IH]; intros st.
  - rewrite check_sources_nil. intros [= <- <-]. reflexivity.
  - destruct (adapter_cases f env ip (world st))
      as [(c & w & Hf) | [(c & w & Hf) | (e & w & Hf)]].
    + rewrite (check_sources_blocked _ _ _ _ _ _ _ _ Hf). intros [= <- <-].
      reflexivity.
    + rewrite (check_sources_not_blocked _ _ _ _ _ _ _ _ Hf).
      intros Hrun. exact (IH _ Hrun).
    + rewrite (check_sources_raised _ _ _ _ _ _ _ _ Hf).
      intros Hrun. exact (IH _ Hrun).
Qed.

(** The undecorated body either leaves the timed cache alone (a fresh entry
    was found) or overwrites the entry of the address. *)
Lemma wrapped_cache sources env ip st v st' :
  is_blacklisted_wrapped sources env ip st = (Ok v, st') ->
  (live_entry st ip = Some v /\ cache st' = cache st) \/
  (live_entry st ip = None /\
   cache st' = <[ip := (v, now (world st'))]> (cache st)).
Proof.
  destruct (live_entry st ip) as [v0 |] eqn:Hl.
  - rewrite (wrapped_hit _ _ _ _ _ Hl). intros [= <- <-]. left. split; reflexivity.
  - rewrite (wrapped_miss _ _ _ _ Hl). intros Hrun. right. split; [reflexivity |].
    exact (check_sources_cache _ _ _ _ _ _ Hrun).
Qed.

(** The decorated method: by cases on the memo and on the timed cache. *)
Lemma is_blacklisted_cases sources form env ip st :
  (exists v,
     memo_lookup (memo st) (form, ip) = Some v /\
     is_blacklisted sources form env ip st
     = (Ok v, set_memo st (((form, ip), v) :: memo_remove (form, ip) (memo st)))) \/
  (exists v st1,
     memo_lookup (memo st) (form, ip) = None /\
     is_blacklisted_wrapped sources env ip st = (Ok v, st1) /\
     memo st1 = memo st /\
     is_blacklisted sources form env ip st
     = (Ok v, set_memo st1 (((form, ip), v) :: evict (memo st)))).
Proof.
  unfold is_blacklisted.
  destruct (memo_lookup (memo st) (form, ip)) as [v |] eqn:Hm.
  - left. exists v. split; [reflexivity |]. exact (lru_hit _ _ _ _ _ Hm).
  - right. destruct (wrapped_returns sources env ip st) as (v & st1 & Hrun & Hst).
    exists v, st1. repeat split; try assumption.
    exact (lru_miss _ _ _ _ _ _ Hm Hrun Hst).
Qed.




(** X2. A lookup of one address changes the entry of no other address in
    [self.cache], and removes no entry: the timed cache only grows between
    two calls of [clear_cache]. *)
Theorem lookup_touches_one_entry sources form env ip st r st' k :
  is_blacklisted sources form env ip st = (r, st') ->
  (k <> ip -> cache st' !! k = cache st !! k) /\
  (is_Some (cache st !! k) -> is_Some (cache st' !! k)).
Proof.
  intros Hrun.
  assert (Hc : cache st' = cache st \/
               exists v t, cache st' = <[ip := (v, t)]> (cache st)).
  { destruct (is_blacklisted_cases sources form env ip st)
      as [(v0 & _ & Hdec) | (v1 & st1 & _ & Hbody & _ & Hdec)];
      rewrite Hdec in Hrun; injection Hrun as _ <-; cbn [cache set_memo].
    - now left.
    - destruct (wrapped_cache _ _ _ _ _ _ Hbody) as [[_ Hc] | [_ Hc]];
        [now left | right; eauto]. }
  destruct Hc as [-> | (v & t & ->)].
  - split; auto.
  - split.
    + intros Hk. apply lookup_insert_ne. congruence.
    + intros Hsome. destruct (decide (ip = k)) as [-> | Hne].
      * rewrite lookup_insert_eq. eauto.
      * now rewrite lookup_insert_ne.
Qed.

Lemma lookup_touches_one_entry_witness :
  "198.51.100.9"%string <> ip_example /\
  (let st := snd (is_blacklisted init_sources Positional env_scored "198.51.100.9" state0) in
   let st' := snd (is_blacklisted init_sources Positional env_clean ip_example st) in
   cache st' !! "198.51.100.9"%string = cache st !! "198.51.100.9"%string).
Proof.
  assert (Hne : "198.51.100.9"%string <> ip_example) by discriminate.
  split; [exact Hne |].
  exact (proj1 (lookup_touches_one_entry init_sources Positional env_clean ip_example
                  (snd (is_blacklisted init_sources Positional env_scored "198.51.100.9" state0))
                  _ _ "198.51.100.9"%string (surjective_pairing _)) Hne).
Defined.

(** X3. One entry per address: a lookup that neither cache answers adds one
    entry to [self.cache] when the address had none, and replaces the entry
    when the address had a stale one; the number of entries changes
    accordingly. *)
Theorem lookup_adds_or_replaces_entry sources form env ip st r st' :
  uncached form st ip ->
  is_blacklisted sources form env ip st = (r, st') ->
  size (cache st')
  = match cache st !! ip with
    | Some _ => size (cache st)
    | None => S (size (cache st))
    end.
Proof.
  intros [Hm Hl] Hrun.
  destruct (is_blacklisted_cases sources form env ip st)
    as [(v0 & Hm0 & _) | (v1 & st1 & _ & Hbody & _ & Hdec)]; [congruence |].
  rewrite Hdec in Hrun. injection Hrun as _ <-. cbn [cache set_memo].
  destruct (wrapped_cache _ _ _ _ _ _ Hbody) as [[Hl' _] | [_ Hc]]; [congruence |].
  rewrite Hc. destruct (cache st !! ip) as [old |] eqn:Hold.
  - apply map_size_insert_Some. eauto.
  - now apply map_size_insert_None.
Qed.

Lemma lookup_adds_or_replaces_entry_witness :
  uncached Positional state0 ip_example /\
  size (cache (snd (is_blacklisted init_sources Positional env_clean ip_example state0)))
  = 1%nat.
Proof.
  assert (Hmiss : uncached Positional state0 ip_example) by (split; reflexivity).
  split; [exact Hmiss |].
  exact (lookup_adds_or_replaces_entry init_sources Positional env_clean ip_example state0
           _ _ Hmiss (surjective_pairing _)).
Defined.

(** ** Keys that the memo does not hold *)

Lemma memo_lookup_None_In m key v : memo_lookup m key = None -> ~ In (key, v) m.
Proof.
  induction m as [| [k v'] m IH]; [intros _ [] |].
  cbn [memo_lookup]. destruct (key_eqb key k) eqn:Hk; [discriminate |].
  intros Hm [[= -> _] | Hin].
  - rewrite key_eqb_refl in Hk. discriminate.
  - exact (IH Hm Hin).
Qed.

Lemma is_blacklisted_memo_agrees sources form env ip st r st' :
  memo_agrees_with_cache form st ->
  is_blacklisted sources form env ip st = (r, st') ->
  memo_agrees_with_cache form st'.
Proof.
  intros Hinv Hrun.
  destruct (is_blacklisted_cases sources form env ip st)
    as [(v0 & Hm & Hdec) | (v1 & st1 & Hm & Hbody & _ & Hdec)];
    rewrite Hdec in Hrun; injection Hrun as _ <-;
    intros key' v'; cbn [memo cache set_memo].
  - intros [[= <- <-] | Hin].
    + split; [reflexivity |].
      exact (proj2 (Hinv _ _ (memo_lookup_In _ _ _ Hm))).
    + exact (Hinv _ _ (In_memo_remove _ _ _ Hin)).
  - destruct (wrapped_cache _ _ _ _ _ _ Hbody) as [[Hl Hc] | [_ Hc]]; rewrite Hc.
    + intros [[= <- <-] | Hin].
      * split; [reflexivity |]. exact (live_entry_cached _ _ _ Hl).
      * exact (Hinv _ _ (In_evict _ _ Hin)).
    + intros [[= <- <-] | Hin].
      * split; [reflexivity |]. cbn [snd]. rewrite lookup_insert_eq. eauto.
      * apply In_evict in Hin. destruct (Hinv _ _ Hin) as [Hform Hcached].
        split; [exact Hform |].
        assert (Hne : ip <> snd key').
        { intros Heq. apply (memo_lookup_None_In _ _ v' Hm).
          destruct key' as [f' ip']. cbn [fst snd] in Hform, Heq. subst. exact Hin. }
        rewrite lookup_insert_ne by exact Hne. exact Hcached.
Qed.

Lemma in_form_memo_agrees sources form st :
  reachable_in_form sources form st -> memo_agrees_with_cache form st.
Proof.
  induction 1 as [w | env ip st r st' _ IH Hrun | st r st' _ IH Hrun | st w _ IH].
  - intros key v [].
  - exact (is_blacklisted_memo_agrees _ _ _ _ _ _ _ IH Hrun).
  - injection Hrun as _ <-. intros key v [].
  - exact IH.
Qed.

(** X4. As long as every call of [is_blacklisted] is made in the same form,
    the verdict a call returns for an address is the verdict that
    [self.cache] holds for that address after the call: the memo of the
    decorator then never answers with a verdict the timed cache does not
    record. (Calls in different forms have separate memo entries, and this
    no longer holds when they are mixed.) *)
Theorem returned_verdict_is_cached sources form env ip st v st' :
  reachable_in_form sources form st ->
  is_blacklisted sources form env ip st = (Ok v, st') ->
  exists t, cache st' !! ip = Some (v, t).
Proof.
  intros Hreach Hrun.
  pose proof (is_blacklisted_memo_agrees _ _ _ _ _ _ _
                (in_form_memo_agrees _ _ _ Hreach) Hrun) as Hinv.
  destruct (is_blacklisted_returns sources form env ip st)
    as (v0 & st0 & m & Hok & Hfront & _).
  rewrite Hok in Hrun. injection Hrun as -> ->.
  apply (Hinv (form, ip) v). rewrite Hfront. now left.
Qed.

Lemma returned_verdict_is_cached_witness :
  reachable_in_form init_sources Positional state0 /\
  exists t,
    cache (snd (is_blacklisted init_sources Positional env_scored ip_example state0))
      !! ip_example
    = Some ((true, Some "abuseipdb"%string, 85), t).
Proof.
  assert (Hreach : reachable_in_form init_sources Positional state0)
    by apply in_form_init.
  split; [exact Hreach |].
  apply (returned_verdict_is_cached init_sources Positional env_scored ip_example
           state0 _ _ Hreach).
  vm_compute. reflexivity.
Defined.

(** ** The memo stays within [maxsize] *)

Lemma length_removelast_le {A : Type} (l : list A) :
  l <> [] -> S (length (removelast l)) = length l.
Proof.
  induction l as [| a l IH]; [congruence |]. intros _.
  destruct l as [| b l']; [reflexivity |].
  change (removelast (a :: b :: l')) with (a :: removelast (b :: l')).
  cbn [length]. f_equal. apply IH. discriminate.
Qed.

Lemma evict_length m :
  Z.of_nat (length m) <= maxsize -> Z.of_nat (length (evict m)) < maxsize.
Proof.
  intros Hle. unfold evict.
  destruct (maxsize <=? Z.of_nat (length m)) eqn:Hfull.
  - apply Z.leb_le in Hfull.
    assert (Hne : m <> []) by (intros ->; cbn in Hfull; unfold maxsize in Hfull; lia).
    pose proof (length_removelast_le m Hne). lia.
  - apply Z.leb_gt in Hfull. exact Hfull.
Qed.

Lemma memo_remove_length key m : (length (memo_remove key m) <= length m)%nat.
Proof. unfold memo_remove. apply List.filter_length_le. Qed.

Lemma memo_remove_length_hit key v m :
  memo_lookup m key = Some v -> (length (memo_remove key m) < length m)%nat.
Proof.
  induction m as [| [k v'] m IH]; [discriminate |].
  cbn [memo_lookup memo_remove List.filter fst].
  destruct (key_eqb key k); cbn [negb length].
  - intros _. pose proof (memo_remove_length key m). unfold memo_remove in *. lia.
  - intros Hm. specialize (IH Hm). unfold memo_remove in *. lia.
Qed.

Lemma keys_memo_remove key m :
  NoDup (map fst m) ->
  NoDup (map fst (memo_remove key m)) /\ ~ In key (map fst (memo_remove key m)).
Proof.
  induction m as [| [k v] m IH]; intros Hnd.
  - split; [constructor | intros []].
  - apply NoDup_cons in Hnd. destruct Hnd as [Hk Hnd].
    destruct (IH Hnd) as [IH1 IH2].
    cbn [memo_remove List.filter fst].
    destruct (key_eqb key k) eqn:Hkey; cbn [negb].
    + split; assumption.
    + cbn [map fst]. split.
      * apply NoDup_cons. split; [| exact IH1].
        rewrite list_elem_of_In. rewrite list_elem_of_In in Hk.
        intros Hin. apply Hk. apply in_map_iff in Hin.
        destruct Hin as (p & Hp & Hin). apply in_map_iff. exists p.
        split; [exact Hp | exact (In_memo_remove _ _ _ Hin)].
      * intros [-> | Hin]; [| exact (IH2 Hin)].
        rewrite key_eqb_refl in Hkey. discriminate.
Qed.

Lemma keys_evict m :
  NoDup (map fst m) -> NoDup (map fst (evict m)).
Proof.
  unfold evict. destruct (maxsize <=? Z.of_nat (length m)); [| trivial].
  induction m as [| p m IH]; [trivial |].
  destruct m as [| q m']; [intros _; constructor |].
  change (removelast (p :: q :: m')) with (p :: removelast (q :: m')).
  cbn [map]. intros Hnd. apply NoDup_cons in Hnd. destruct Hnd as [Hp Hnd].
  apply NoDup_cons. split; [| exact (IH Hnd)].
  rewrite list_elem_of_In. rewrite list_elem_of_In in Hp.
  intros Hin. apply Hp. apply in_map_iff in Hin.
  destruct Hin as (x & Hx & Hin). rewrite <- Hx.
  exact (in_map fst _ _ (In_removelast _ _ Hin)).
Qed.

Lemma memo_lookup_None_key m key :
  memo_lookup m key = None -> ~ In key (map fst m).
Proof.
  intros Hm Hin. apply in_map_iff in Hin. destruct Hin as ([k v] & Hk & Hin).
  cbn [fst] in Hk. subst k. exact (memo_lookup_None_In _ _ _ Hm Hin).
Qed.

Lemma is_blacklisted_memo_bounded sources form env ip st r st' :
  memo_bounded st ->
  is_blacklisted sources form env ip st = (r, st') ->
  memo_bounded st'.
Proof.
  intros [Hlen Hnd] Hrun.
  destruct (is_blacklisted_cases sources form env ip st)
    as [(v0 & Hm & Hdec) | (v1 & st1 & Hm & _ & _ & Hdec)];
    rewrite Hdec in Hrun; injection Hrun as _ <-;
    unfold memo_bounded; cbn [memo set_memo length map fst].
  - split.
    + pose proof (memo_remove_length_hit _ _ _ Hm). lia.
    + destruct (keys_memo_remove (form, ip) _ Hnd) as [Hnd' Hnotin].
      apply NoDup_cons. split; [| exact Hnd'].
      rewrite list_elem_of_In. exact Hnotin.
  - split.
    + pose proof (evict_length _ Hlen). lia.
    + apply NoDup_cons. split; [| exact (keys_evict _ Hnd)].
      rewrite list_elem_of_In. apply memo_lookup_None_key.
      now apply memo_lookup_evict.
Qed.

(** X5. In every state the checker can reach, the memo of the decorator
    holds at most [maxsize] = 10000 verdicts, and at most one for each key,
    that is, for each call form and address. *)
Theorem memo_stays_bounded sources st :
  reachable sources st ->
  Z.of_nat (length (memo st)) <= 10000 /\ NoDup (map fst (memo st)).
Proof.
  induction 1 as [w | form env ip st r st' _ IH Hrun | st r st' _ IH Hrun | st w _ IH].
  - split; [cbn; lia | constructor].
  - exact (is_blacklisted_memo_bounded _ _ _ _ _ _ _ IH Hrun).
  - injection Hrun as _ <-. split; [cbn; lia | constructor].
  - exact IH.
Qed.

Lemma memo_stays_bounded_witness :
  reachable init_sources
    (snd (is_blacklisted init_sources Positional env_clean ip_example state0)) /\
  Z.of_nat (length (memo (snd (is_blacklisted init_sources Positional env_clean ip_example state0))))
  <= 10000.
Proof.
  assert (Hreach : reachable init_sources
            (snd (is_blacklisted init_sources Positional env_clean ip_example state0))).
  { eapply reachable_is_blacklisted; [apply reachable_init |].
    apply surjective_pairing. }
  split; [exact Hreach |].
  exact (proj1 (memo_stays_bounded init_sources _ Hreach)).
Defined.

(** ** The timed cache of the undecorated body *)

Lemma wrapped_stores sources env ip st v st1 :
  live_entry st ip = None ->
  is_blacklisted_wrapped sources env ip st = (Ok v, st1) ->
  cache st1 !! ip = Some (v, now (world st1)).
Proof.
  intros Hl Hrun.
  destruct (wrapped_cache _ _ _ _ _ _ Hrun) as [[Hl' _] | [_ Hc]]; [congruence |].
  rewrite Hc. apply lookup_insert_eq.
Qed.

(** X6. The body of [is_blacklisted], without the decorator, serves a
    verdict it has computed for less than 24 hours: called again [d] later,
    with [d] below the validity window (also when the clock has gone back),
    it returns the stored verdict, changes neither cache, sends no request
    and only logs the hit at DEBUG level. The stored time is not renewed. *)
Theorem body_serves_fresh_entry sources env1 env2 ip st v st1 d :
  live_entry st ip = None ->
  is_blacklisted_wrapped sources env1 ip st = (Ok v, st1) ->
  d < cache_duration ->
  is_blacklisted_wrapped sources env2 ip (advance d st1)
  = (Ok v,
     set_world (advance d st1)
       (add_log (world (advance d st1)) (DEBUG, MsgCacheHit ip v))).
Proof.
  intros Hl Hrun Hd. apply wrapped_hit.
  unfold live_entry. cbn [cache world advance set_world now].
  rewrite (wrapped_stores _ _ _ _ _ _ Hl Hrun).
  replace (now (world st1) + d - now (world st1)) with d by lia.
  apply Z.ltb_lt in Hd. now rewrite Hd.
Qed.

Lemma body_serves_fresh_entry_witness :
  live_entry state0 ip_example = None /\
  hours 23 < cache_duration /\
  fst (is_blacklisted_wrapped init_sources env_listed ip_example
         (advance (hours 23)
            (snd (is_blacklisted_wrapped init_sources env_clean ip_example state0))))
  = Ok (false, None, 0).
Proof.
  assert (Hl : live_entry state0 ip_example = None) by reflexivity.
  assert (Hd : hours 23 < cache_duration) by (unfold hours, cache_duration; lia).
  split; [exact Hl |]. split; [exact Hd |].
  rewrite (body_serves_fresh_entry init_sources env_clean env_listed ip_example
             state0 (false, None, 0)
             (snd (is_blacklisted_wrapped init_sources env_clean ip_example state0))
             (hours 23) Hl);
    [reflexivity | vm_compute; reflexivity | exact Hd].
Defined.

(** X7. The same body recomputes an entry that is 24 hours old or older
    (the test is strict, so exactly 24 hours is already stale): it logs the
    lookup and runs the loop over the sources again. *)
Theorem body_recomputes_stale_entry sources env1 env2 ip st v st1 d :
  live_entry st ip = None ->
  is_blacklisted_wrapped sources env1 ip st = (Ok v, st1) ->
  cache_duration <= d ->
  is_blacklisted_wrapped sources env2 ip (advance d st1)
  = check_sources sources env2 ip (checking (advance d st1) ip).
Proof.
  intros Hl Hrun Hd. apply wrapped_miss.
  unfold live_entry. cbn [cache world advance set_world now].
  rewrite (wrapped_stores _ _ _ _ _ _ Hl Hrun).
  replace (now (world st1) + d - now (world st1)) with d by lia.
  apply Z.ltb_ge in Hd. now rewrite Hd.
Qed.

Lemma body_recomputes_stale_entry_witness :
  live_entry state0 ip_example = None /\
  cache_duration <= hours 24 /\
  fst (is_blacklisted_wrapped init_sources env_listed ip_example
         (advance (hours 24)
            (snd (is_blacklisted_wrapped init_sources env_clean ip_example state0))))
  = Ok (true, Some "stopforumspam"%string, 50).
Proof.
  assert (Hl : live_entry state0 ip_example = None) by reflexivity.
  assert (Hd : cache_duration <= hours 24) by (unfold hours, cache_duration; lia).
  split; [exact Hl |]. split; [exact Hd |].
  rewrite (body_recomputes_stale_entry init_sources env_clean env_listed ip_example
             state0 (false, None, 0)
             (snd (is_blacklisted_wrapped init_sources env_clean ip_example state0))
             (hours 24) Hl);
    [vm_compute; reflexivity | vm_compute; reflexivity | exact Hd].
Defined.

(** ** What the adapters send *)

(** An action that sends no request. *)
Lemma silent_bind {A B : Type} (m : M World A) (k : A -> M World B) :
  (forall w, sent (snd (m w)) = sent w) ->
  (forall a w, sent (snd (k a w)) = sent w) ->
  forall w, sent (snd (bind m k w)) = sent w.
Proof.
  intros Hm Hk w. unfold bind. specialize (Hm w).
  destruct (m w) as [[a | e] w']; cbn [snd] in *; [| exact Hm].
  now rewrite Hk.
Qed.

Lemma silent_logger lvl m w : sent (snd (logger lvl m w)) = sent w.
Proof. reflexivity. Qed.

Lemma silent_of_res {A : Type} (r : res A) w : sent (snd (of_res r w)) = sent w.
Proof. reflexivity. Qed.

Lemma silent_response_json response w :
  sent (snd (response_json response w)) = sent w.
Proof. unfold response_json. destruct (json response); reflexivity. Qed.

Ltac silent_step :=
  first
    [ apply silent_logger | apply silent_response_json
    | apply (silent_of_res (A := _))
    | apply silent_bind; [intros ? | intros ? ?]
    | match goal with
      | |- context [if ?b then _ else _] => destruct b
      end ].

(** One request, then no other. *)
Lemma one_request {A : Type} env r (k : Response -> M World A) w :
  (forall response w', sent (snd (k response w')) = sent w') ->
  sent (snd (bind (requests_get env r) k w)) = sent w ++ [r].
Proof.
  intros Hk. unfold bind, requests_get.
  destruct (net env r) as [response |]; cbn [snd sent]; [| reflexivity].
  now rewrite Hk.
Qed.

Lemma abuseipdb_sent env ip w :
  sent (snd (_check_abuseipdb env ip w))
  = sent w ++
    if py_not (environ env "ABUSEIPDB_API_KEY") then []
    else [abuseipdb_request (default ""%string (environ env "ABUSEIPDB_API_KEY")) ip].
Proof.
  unfold _check_abuseipdb. cbn zeta.
  destruct (py_not (environ env "ABUSEIPDB_API_KEY")).
  - now rewrite app_nil_r.
  - change (logger DEBUG (MsgCheckingSource "AbuseIPDB" ip);; ?k)
      with (bind (logger DEBUG (MsgCheckingSource "AbuseIPDB" ip)) (fun _ => k)).
    unfold bind at 1. cbn [logger modify].
    rewrite one_request; [reflexivity |].
    intros response w'. repeat silent_step; reflexivity.
Qed.

Lemma stopforumspam_sent env ip w :
  sent (snd (_check_stopforumspam env ip w)) = sent w ++ [stopforumspam_request ip].
Proof.
  unfold _check_stopforumspam. cbn zeta.
  unfold bind at 1. cbn [logger modify].
  rewrite one_request; [reflexivity |].
  intros response w'. repeat silent_step; reflexivity.
Qed.

Lemma blocklist_de_sent env ip w :
  sent (snd (_check_blocklist_de env ip w)) = sent w ++ [blocklist_de_request ip].
Proof.
  unfold _check_blocklist_de. cbn zeta.
  unfold bind at 1. cbn [logger modify].
  rewrite one_request; [reflexivity |].
  intros response w'. repeat silent_step; reflexivity.
Qed.

(** The loop over the registered sources: which requests it sends. *)
Lemma check_sources_init_sent env ip st :
  exists l,
    sent (world (snd (check_sources init_sources env ip st))) = sent (world st) ++ l /\
    l `sublist_of` lookup_requests env ip /\ l <> [].
Proof.
  unfold init_sources, lookup_requests.
  set (a := abuseipdb_request (default ""%string (environ env "ABUSEIPDB_API_KEY")) ip).
  set (s := stopforumspam_request ip). set (b := blocklist_de_request ip).
  pose proof (abuseipdb_sent env ip (world st)) as Ha. fold a in Ha.
  assert (Hsb : forall st2 A,
            A `sublist_of` [a] ->
            sent (world st2) = sent (world st) ++ A ->
            exists l,
              sent (world (snd (check_sources
                                  [("stopforumspam"%string, _check_stopforumspam);
                                   ("blocklist_de"%string, _check_blocklist_de)]
                                  env ip st2)))
              = sent (world st) ++ l /\
              l `sublist_of` [a; s; b] /\ l <> []).
  { intros st2 A HA Hst2.
    pose proof (stopforumspam_sent env ip (world st2)) as Hs. fold s in Hs.
    assert (Hb : forall st3,
              sent (world st3) = sent (world st) ++ A ++ [s] ->
              exists l,
                sent (world (snd (check_sources
                                    [("blocklist_de"%string, _check_blocklist_de)]
                                    env ip st3)))
                = sent (world st) ++ l /\
                l `sublist_of` [a; s; b] /\ l <> []).
    { intros st3 Hst3.
      pose proof (blocklist_de_sent env ip (world st3)) as Hb. fold b in Hb.
      exists (A ++ [s; b]). split; [| split].
      - destruct (adapter_cases _check_blocklist_de env ip (world st3))
          as [(c & w & Hf) | [(c & w & Hf) | (e & w & Hf)]];
          rewrite Hf in Hb; cbn [snd] in Hb.
        + rewrite (check_sources_blocked _ _ _ _ _ _ _ _ Hf). cbn.
          rewrite Hb, Hst3. now rewrite <- !app_assoc.
        + rewrite (check_sources_not_blocked _ _ _ _ _ _ _ _ Hf). cbn.
          rewrite Hb, Hst3. now rewrite <- !app_assoc.
        + rewrite (check_sources_raised _ _ _ _ _ _ _ _ Hf). cbn.
          rewrite Hb, Hst3. now rewrite <- !app_assoc.
      - change [a; s; b] with ([a] ++ [s; b]). now apply sublist_app.
      - destruct A; cbn; discriminate. }
    destruct (adapter_cases _check_stopforumspam env ip (world st2))
      as [(c & w & Hf) | [(c & w & Hf) | (e & w & Hf)]];
      rewrite Hf in Hs; cbn [snd] in Hs.
    - rewrite (check_sources_blocked _ _ _ _ _ _ _ _ Hf). cbn.
      exists (A ++ [s]). split; [| split].
      + rewrite Hs, Hst2. now rewrite <- app_assoc.
      + change [a; s; b] with ([a] ++ [s; b]). apply sublist_app; [exact HA |].
        apply sublist_skip, sublist_cons, sublist_nil.
      + destruct A; cbn; discriminate.
    - rewrite (check_sources_not_blocked _ _ _ _ _ _ _ _ Hf).
      apply Hb. cbn. rewrite Hs, Hst2. now rewrite <- app_assoc.
    - rewrite (check_sources_raised _ _ _ _ _ _ _ _ Hf).
      apply Hb. cbn. rewrite Hs, Hst2. now rewrite <- app_assoc. }
  assert (HA : (if py_not (environ env "ABUSEIPDB_API_KEY") then [] else [a])
               `sublist_of` [a]).
  { destruct (py_not (environ env "ABUSEIPDB_API_KEY"));
      [apply sublist_cons, sublist_nil | reflexivity]. }
  destruct (adapter_cases _check_abuseipdb env ip (world st))
    as [(c & w & Hf) | [(c & w & Hf) | (e & w & Hf)]].
  - rewrite (check_sources_blocked _ _ _ _ _ _ _ _ Hf). cbn.
    rewrite Hf in Ha. cbn [snd] in Ha.
    destruct (py_not (environ env "ABUSEIPDB_API_KEY")) eqn:Hk.
    + rewrite (abuseipdb_skipped _ _ _ Hk) in Hf. discriminate Hf.
    + exists [a]. split; [exact Ha |]. split; [| discriminate].
      apply sublist_skip, sublist_cons, sublist_cons, sublist_nil.
  - rewrite (check_sources_not_blocked _ _ _ _ _ _ _ _ Hf).
    rewrite Hf in Ha. cbn [snd] in Ha. eapply Hsb; [exact HA | exact Ha].
  - rewrite (check_sources_raised _ _ _ _ _ _ _ _ Hf).
    rewrite Hf in Ha. cbn [snd] in Ha. eapply Hsb; [exact HA | exact Ha].
Qed.

Lemma lookup_sent form env ip st r st' :
  is_blacklisted init_sources form env ip st = (r, st') ->
  exists l,
    sent (world st') = sent (world st) ++ l /\
    l `sublist_of` lookup_requests env ip /\
    (uncached form st ip -> l <> []) /\
    (memo_lookup (memo st) (form, ip) <> None \/ live_entry st ip <> None -> l = []).
Proof.
  intros Hrun.
  destruct (is_blacklisted_cases init_sources form env ip st)
    as [(v0 & Hm & Hdec) | (v1 & st1 & Hm & Hbody & _ & Hdec)];
    rewrite Hdec in Hrun; injection Hrun as _ <-; cbn [world set_memo].
  - exists []. rewrite app_nil_r. split; [reflexivity |].
    split; [apply sublist_nil_l |]. split; [| reflexivity].
    intros [Hm' _]. congruence.
  - destruct (live_entry st ip) as [v |] eqn:Hl.
    + rewrite (wrapped_hit _ _ _ _ _ Hl) in Hbody. injection Hbody as _ <-.
      exists []. rewrite app_nil_r. split; [reflexivity |].
      split; [apply sublist_nil_l |]. split; [| reflexivity].
      intros [_ Hl']. congruence.
    + rewrite (wrapped_miss _ _ _ _ Hl) in Hbody.
      destruct (check_sources_init_sent env ip (checking st ip)) as (l & Hl1 & Hl2 & Hl3).
      unfold checking in Hl1. rewrite Hbody in Hl1. cbn [snd] in Hl1.
      exists l. split; [exact Hl1 |]. split; [exact Hl2 |].
      split; [intros _; exact Hl3 |].
      intros [Hm' | Hl']; congruence.
Qed.

(** X8. A call of [is_blacklisted] sends at most one request to each
    provider, in the order of the sources and only for the address looked
    up: the requests it sends are a sublist of the three of
    [lookup_requests]. It sends at least one when neither cache answers,
    and none at all when the memo or the timed cache answers. *)
Theorem lookup_sends_at_most_one_request_per_source form env ip st r st' :
  is_blacklisted init_sources form env ip st = (r, st') ->
  exists l,
    sent (world st') = sent (world st) ++ l /\
    l `sublist_of` lookup_requests env ip /\
    (uncached form st ip -> l <> []) /\
    (memo_lookup (memo st) (form, ip) <> None \/ live_entry st ip <> None -> l = []).
Proof. exact (lookup_sent form env ip st r st'). Qed.

Lemma lookup_sends_at_most_one_request_per_source_witness :
  exists l,
    sent (world (snd (is_blacklisted init_sources Positional env_scored ip_example state0)))
    = sent (world state0) ++ l /\
    l `sublist_of` lookup_requests env_scored ip_example.
Proof.
  destruct (lookup_sends_at_most_one_request_per_source
              Positional env_scored ip_example state0 _ _ (surjective_pairing _))
    as (l & H1 & H2 & _).
  exists l. split; assumption.
Defined.

(** X9. [clear_cache] forces the next lookup to ask the providers again:
    after it no address is answered by either cache, and the next call of
    [is_blacklisted], for any address, sends at least one request. *)
Theorem clear_cache_forces_requery form env ip st :
  uncached form (snd (clear_cache st)) ip /\
  exists l,
    sent (world (snd (is_blacklisted init_sources form env ip (snd (clear_cache st)))))
    = sent (world st) ++ l /\
    l <> [].
Proof.
  assert (Hmiss : uncached form (snd (clear_cache st)) ip).
  { split; [reflexivity |]. unfold live_entry. cbn. now rewrite lookup_empty. }
  split; [exact Hmiss |].
  destruct (lookup_sent form env ip (snd (clear_cache st)) _ _ (surjective_pairing _))
    as (l & Hl & _ & Hne & _).
  exists l. split; [exact Hl | exact (Hne Hmiss)].
Qed.



(** ** What the adapters can return *)

Lemma key_cases env :
  py_not (environ env "ABUSEIPDB_API_KEY") = true \/
  exists api_key,
    environ env "ABUSEIPDB_API_KEY" = Some api_key /\ api_key <> ""%string.
Proof.
  destruct (environ env "ABUSEIPDB_API_KEY") as [k |]; [| now left].
  cbn [py_not]. destruct (String.eqb k "") eqn:Hk; [now left |].
  right. exists k. split; [reflexivity |]. now apply String.eqb_neq.
Qed.

Lemma abuseipdb_result_range env ip w blocked confidence :
  fst (_check_abuseipdb env ip w) = Ok (blocked, confidence) ->
  (blocked = true <-> 75 < confidence).
Proof.
  destruct (key_cases env) as [Hk | (api_key & Henv & Hk)].
  - rewrite (abuseipdb_skipped _ _ _ Hk). intros [= <- <-].
    split; [discriminate | lia].
  - destruct (net env (abuseipdb_request api_key ip)) as [response |] eqn:Hnet.
    + rewrite (abuseipdb_answered _ _ _ _ _ Henv Hk Hnet).
      destruct (status_code response =? 200);
        [| intros [= <- <-]; split; [discriminate | lia]].
      destruct (json response) as [data |]; [| discriminate].
      destruct (py_get data "data" (PyDict [])) as [inner | e]; [| discriminate].
      destruct (py_get inner "abuseConfidenceScore" (PyInt 0)) as [s | e];
        [| discriminate].
      destruct (py_num s) as [score | e]; [| discriminate].
      intros [= <- <-]. apply Z.ltb_lt.
    + rewrite (abuseipdb_transport_failure _ _ _ _ Henv Hk Hnet). discriminate.
Qed.

(** X11. Whatever the environment and the provider's answer, when the
    AbuseIPDB adapter returns a result it reports blocked exactly when the
    confidence it returns is above 75. *)
Theorem abuseipdb_blocked_iff_above_75 env ip w blocked confidence :
  fst (_check_abuseipdb env ip w) = Ok (blocked, confidence) ->
  (blocked = true <-> 75 < confidence).
Proof. exact (abuseipdb_result_range env ip w blocked confidence). Qed.

Lemma abuseipdb_blocked_iff_above_75_witness :
  fst (_check_abuseipdb env_scored ip_example world0) = Ok (true, 85) /\
  (true = true <-> 75 < 85).
Proof.
  assert (H : fst (_check_abuseipdb env_scored ip_example world0) = Ok (true, 85))
    by reflexivity.
  split; [exact H |].
  exact (abuseipdb_blocked_iff_above_75 env_scored ip_example world0 true 85 H).
Defined.

Lemma stopforumspam_result_range env ip w blocked confidence :
  fst (_check_stopforumspam env ip w) = Ok (blocked, confidence) ->
  confidence <= 100 /\ (blocked = false -> confidence = 0).
Proof.
  destruct (net env (stopforumspam_request ip)) as [response |] eqn:Hnet.
  - rewrite (stopforumspam_answered _ _ _ _ Hnet).
    destruct (status_code response =? 200);
      [| intros [= <- <-]; split; [lia | reflexivity]].
    destruct (json response) as [data |]; [| discriminate].
    destruct (py_get data "ip" (PyDict [])) as [entry | e]; [| discriminate].
    destruct (py_get entry "appears" (PyInt 0)) as [a | e]; [| discriminate].
    destruct (py_num a) as [n | e]; [| discriminate].
    destruct (0 <? n); [| intros [= <- <-]; split; [lia | reflexivity]].
    destruct (py_get entry "frequency" (PyInt 0)) as [fr | e]; [| discriminate].
    destruct (py_num fr) as [f | e]; [| discriminate].
    intros [= <- <-]. split; [lia | discriminate].
  - rewrite (stopforumspam_transport_failure _ _ _ Hnet). discriminate.
Qed.

(** X12. Whatever the provider answers, a result of the StopForumSpam
    adapter has confidence at most 100, and confidence 0 when it does not
    block. *)
Theorem stopforumspam_confidence_at_most_100 env ip w blocked confidence :
  fst (_check_stopforumspam env ip w) = Ok (blocked, confidence) ->
  confidence <= 100 /\ (blocked = false -> confidence = 0).
Proof. exact (stopforumspam_result_range env ip w blocked confidence). Qed.

Lemma stopforumspam_confidence_at_most_100_witness :
  fst (_check_stopforumspam env_scored ip_example world0) = Ok (true, 50) /\
  50 <= 100.
Proof.
  assert (H : fst (_check_stopforumspam env_scored ip_example world0) = Ok (true, 50))
    by reflexivity.
  split; [exact H |].
  exact (proj1 (stopforumspam_confidence_at_most_100
                  env_scored ip_example world0 true 50 H)).
Defined.

Lemma blocklist_de_result_range env ip w result :
  fst (_check_blocklist_de env ip w) = Ok result ->
  result = (true, 80) \/ result = (false, 0).
Proof.
  destruct (net env (blocklist_de_request ip)) as [response |] eqn:Hnet.
  - rewrite (blocklist_de_answered _ _ _ _ Hnet).
    destruct (status_code response =? 200); [| intros [= <-]; now right].
    destruct (contains "attacks:" (str_lower env (text response))
              && negb (contains "attacks: 0" (str_lower env (text response))));
      intros [= <-]; [now left | now right].
  - rewrite (blocklist_de_transport_failure _ _ _ Hnet). discriminate.
Qed.

(** X13. A result of the blocklist.de adapter is (True, 80) or (False, 0),
    nothing else. *)
Theorem blocklist_de_two_results env ip w result :
  fst (_check_blocklist_de env ip w) = Ok result ->
  result = (true, 80) \/ result = (false, 0).
Proof. exact (blocklist_de_result_range env ip w result). Qed.

Lemma blocklist_de_two_results_witness :
  fst (_check_blocklist_de env_scored ip_example world0) = Ok (true, 80) /\
  ((true, 80) = (true, 80) \/ (true, 80) = (false, 0)).
Proof.
  assert (H : fst (_check_blocklist_de env_scored ip_example world0) = Ok (true, 80))
    by reflexivity.
  split; [exact H |].
  exact (blocklist_de_two_results env_scored ip_example world0 (true, 80) H).
Defined.

(** X14. Fields missing from a 200 answer of AbuseIPDB count as a score of
    0: a JSON object without ["data"], or whose ["data"] object has no
    ["abuseConfidenceScore"], gives the non-blocking result (False, 0). *)
Theorem abuseipdb_missing_fields env ip w api_key response d :
  environ env "ABUSEIPDB_API_KEY" = Some api_key -> api_key <> ""%string ->
  net env (abuseipdb_request api_key ip) = Some response ->
  status_code response = 200 ->
  json response = Some (PyDict d) ->
  dict_lookup d "data" = None \/
  (exists inner, dict_lookup d "data" = Some (PyDict inner) /\
                 dict_lookup inner "abuseConfidenceScore" = None) ->
  fst (_check_abuseipdb env ip w) = Ok (false, 0).
Proof.
  intros Henv Hk Hnet Hs Hj Hmissing.
  rewrite (abuseipdb_answered _ _ _ _ _ Henv Hk Hnet), Hs, Hj.
  cbn [Z.eqb Pos.eqb py_get].
  destruct Hmissing as [-> | (inner & -> & Hi)]; cbn [py_get dict_lookup].
  - reflexivity.
  - rewrite Hi. reflexivity.
Qed.

Lemma abuseipdb_missing_fields_witness :
  fst (_check_abuseipdb
         {| environ := fun _ => Some "k"%string;
            net := fun _ => Some {| status_code := 200; text := "";
                                    json := Some (PyDict []) |};
            latency := fun _ => 0;
            str_lower := ascii_lower |}
         ip_example world0)
  = Ok (false, 0).
Proof.
  eapply (abuseipdb_missing_fields _ ip_example world0 "k"%string _ []);
    [reflexivity | discriminate | reflexivity | reflexivity | reflexivity
    | left; reflexivity].
Defined.

(** X15. The same for StopForumSpam: a 200 answer whose JSON object has no
    ["ip"], or whose ["ip"] object has no ["appears"], gives (False, 0). *)
Theorem stopforumspam_missing_fields env ip w response d :
  net env (stopforumspam_request ip) = Some response ->
  status_code response = 200 ->
  json response = Some (PyDict d) ->
  dict_lookup d "ip" = None \/
  (exists entry, dict_lookup d "ip" = Some (PyDict entry) /\
                 dict_lookup entry "appears" = None) ->
  fst (_check_stopforumspam env ip w) = Ok (false, 0).
Proof.
  intros Hnet Hs Hj Hmissing.
  rewrite (stopforumspam_answered _ _ _ _ Hnet), Hs, Hj.
  cbn [Z.eqb Pos.eqb py_get].
  destruct Hmissing as [-> | (entry & -> & He)]; cbn [py_get dict_lookup].
  - reflexivity.
  - rewrite He. reflexivity.
Qed.

Lemma stopforumspam_missing_fields_witness :
  fst (_check_stopforumspam env_clean ip_example world0) = Ok (false, 0).
Proof.
  eapply (stopforumspam_missing_fields env_clean ip_example world0 _ []);
    [reflexivity | reflexivity | reflexivity | left; reflexivity].
Defined.

(** ** Answers of an unexpected shape *)

Lemma py_get_not_an_object v key default :
  not_an_object v -> py_get v key default = Raise AttributeError.
Proof. destruct v; cbn; intros H; try reflexivity; destruct H. Qed.

Lemma py_num_not_a_number v : not_a_number v -> py_num v = Raise TypeError.
Proof. destruct v; cbn; intros H; try reflexivity; destruct H. Qed.

(** X16. A 200 answer whose body parses to something that is not a JSON
    object (a list, a string, a number, null) makes the AbuseIPDB and the
    StopForumSpam adapter raise AttributeError. *)
Theorem json_not_an_object_raises :
  (forall env ip w api_key response data,
     environ env "ABUSEIPDB_API_KEY" = Some api_key -> api_key <> ""%string ->
     net env (abuseipdb_request api_key ip) = Some response ->
     status_code response = 200 -> json response = Some data ->
     not_an_object data ->
     fst (_check_abuseipdb env ip w) = Raise AttributeError) /\
  (forall env ip w response data,
     net env (stopforumspam_request ip) = Some response ->
     status_code response = 200 -> json response = Some data ->
     not_an_object data ->
     fst (_check_stopforumspam env ip w) = Raise AttributeError).
Proof.
  split.
  - intros env ip w api_key response data Henv Hk Hnet Hs Hj Hd.
    rewrite (abuseipdb_answered _ _ _ _ _ Henv Hk Hnet), Hs, Hj.
    now rewrite (py_get_not_an_object _ _ _ Hd).
  - intros env ip w response data Hnet Hs Hj Hd.
    rewrite (stopforumspam_answered _ _ _ _ Hnet), Hs, Hj.
    now rewrite (py_get_not_an_object _ _ _ Hd).
Qed.

Lemma json_not_an_object_raises_witness :
  not_an_object (PyList []) /\
  fst (_check_stopforumspam
         {| environ := fun _ => None;
            net := fun _ => Some {| status_code := 200; text := "[]";
                                    json := Some (PyList []) |};
            latency := fun _ => 0;
            str_lower := ascii_lower |}
         ip_example world0)
  = Raise AttributeError.
Proof.
  split; [exact I |].
  eapply (proj2 json_not_an_object_raises _ ip_example world0 _ (PyList []));
    [reflexivity | reflexivity | reflexivity | exact I].
Defined.

(** X17. An abuse score that is not a number (null, a string, a list, an
    object) makes the AbuseIPDB adapter raise TypeError: the comparison
    with 75 fails. *)
Theorem abuseipdb_score_not_a_number env ip w api_key response data inner score :
  environ env "ABUSEIPDB_API_KEY" = Some api_key -> api_key <> ""%string ->
  net env (abuseipdb_request api_key ip) = Some response ->
  status_code response = 200 -> json response = Some data ->
  py_get data "data" (PyDict []) = Ok inner ->
  py_get inner "abuseConfidenceScore" (PyInt 0) = Ok score ->
  not_a_number score ->
  fst (_check_abuseipdb env ip w) = Raise TypeError.
Proof.
  intros Henv Hk Hnet Hs Hj Hd Hsc Hn.
  rewrite (abuseipdb_answered _ _ _ _ _ Henv Hk Hnet), Hs, Hj, Hd, Hsc.
  now rewrite (py_num_not_a_number _ Hn).
Qed.

Lemma abuseipdb_score_not_a_number_witness :
  not_a_number (PyStr "85") /\
  fst (_check_abuseipdb
         {| environ := fun _ => Some "k"%string;
            net := fun _ => Some
              {| status_code := 200; text := "";
                 json := Some (PyDict
                   [("data", PyDict [("abuseConfidenceScore", PyStr "85")])]) |};
            latency := fun _ => 0;
            str_lower := ascii_lower |}
         ip_example world0)
  = Raise TypeError.
Proof.
  split; [exact I |].
  eapply (abuseipdb_score_not_a_number _ ip_example world0 "k"%string);
    [reflexivity | discriminate | reflexivity | reflexivity | reflexivity
    | reflexivity | reflexivity | exact I].
Defined.

(** X18. For an address that StopForumSpam lists (appears > 0), a frequency
    that is not a number makes the adapter raise TypeError instead of
    reporting the listing. *)
Theorem stopforumspam_frequency_not_a_number
    env ip w response data entry n frequency :
  net env (stopforumspam_request ip) = Some response ->
  status_code response = 200 -> json response = Some data ->
  py_get data "ip" (PyDict []) = Ok entry ->
  py_get entry "appears" (PyInt 0) = Ok (PyInt n) -> 0 < n ->
  py_get entry "frequency" (PyInt 0) = Ok frequency ->
  not_a_number frequency ->
  fst (_check_stopforumspam env ip w) = Raise TypeError.
Proof.
  intros Hnet Hs Hj Hd Ha Hn Hf Hnn.
  rewrite (stopforumspam_answered _ _ _ _ Hnet), Hs, Hj, Hd, Ha, Hf.
  cbn [Z.eqb Pos.eqb py_num]. apply Z.ltb_lt in Hn. rewrite Hn.
  now rewrite (py_num_not_a_number _ Hnn).
Qed.

Lemma stopforumspam_frequency_not_a_number_witness :
  0 < 1 /\ not_a_number PyNone /\
  fst (_check_stopforumspam
         {| environ := fun _ => None;
            net := fun _ => Some
              {| status_code := 200; text := "";
                 json := Some (PyDict
                   [("ip", PyDict [("appears", PyInt 1);
                                   ("frequency", PyNone)])]) |};
            latency := fun _ => 0;
            str_lower := ascii_lower |}
         ip_example world0)
  = Raise TypeError.
Proof.
  split; [lia |]. split; [exact I |].
  eapply (stopforumspam_frequency_not_a_number _ ip_example world0 _ _ _ 1 PyNone);
    [reflexivity | reflexivity | reflexivity | reflexivity | reflexivity
    | lia | reflexivity | exact I].
Defined.

(** ** The marker test of blocklist.de *)

Lemma ascii_lower_app s1 s2 :
  ascii_lower (s1 +:+ s2) = ascii_lower s1 +:+ ascii_lower s2.
Proof.
  induction s1 as [| c s1 IH]; [reflexivity |].
  change (ascii_lower (String c s1 +:+ s2))
    with (String (ascii_lower_char c) (ascii_lower (s1 +:+ s2))).
  rewrite IH. reflexivity.
Qed.

Lemma ascii_lower_app_inv s a b :
  ascii_lower s = a +:+ b ->
  exists s1 s2, s = s1 +:+ s2 /\ ascii_lower s1 = a /\ ascii_lower s2 = b.
Proof.
  revert s. induction a as [| c a IH]; intros s H.
  - exists ""%string, s. auto.
  - destruct s as [| d s]; [discriminate H |].
    cbn in H. injection H as Hc H.
    destruct (IH s H) as (s1 & s2 & -> & <- & <-).
    exists (String d s1), s2. cbn. rewrite Hc. auto.
Qed.

Lemma substring_of_ascii_lower needle text :
  is_substring needle (ascii_lower text) <-> is_substring_any_case needle text.
Proof.
  unfold is_substring, is_substring_any_case. split.
  - intros (before & after & H).
    destruct (ascii_lower_app_inv _ _ _ H) as (s1 & s23 & -> & _ & H23).
    destruct (ascii_lower_app_inv _ _ _ H23) as (s2 & s3 & -> & Hm & _).
    exists s1, s2, s3. auto.
  - intros (before & middle & after & -> & <-).
    exists (ascii_lower before), (ascii_lower after). now rewrite !ascii_lower_app.
Qed.

(** X19. On a 200 answer whose text the runtime lower-cases as ASCII text
    (every text of ASCII characters is one), the blocklist.de adapter blocks
    exactly when the text contains "attacks:" written in any mix of upper
    and lower case and does not contain "attacks: 0" written in any mix of
    upper and lower case; otherwise it returns (False, 0). *)
Theorem blocklist_de_blocks_iff_marker env ip w response :
  net env (blocklist_de_request ip) = Some response ->
  status_code response = 200 ->
  str_lower env (text response) = ascii_lower (text response) ->
  (fst (_check_blocklist_de env ip w) = Ok (true, 80) <->
   is_substring_any_case "attacks:" (text response) /\
   ~ is_substring_any_case "attacks: 0" (text response)) /\
  (fst (_check_blocklist_de env ip w) = Ok (true, 80) \/
   fst (_check_blocklist_de env ip w) = Ok (false, 0)).
Proof.
  intros Hnet Hs Hlower. rewrite (blocklist_de_answered _ _ _ _ Hnet), Hs, Hlower.
  cbn [Z.eqb Pos.eqb].
  rewrite <- !substring_of_ascii_lower, <- !contains_spec.
  destruct (contains "attacks:" (ascii_lower (text response)));
    destruct (contains "attacks: 0" (ascii_lower (text response))); cbn;
    (split;
     [ split;
       [ intros H; first [discriminate H | split; [reflexivity | discriminate]]
       | intros [H1 H2];
         first [reflexivity | discriminate H1 | exfalso; apply H2; reflexivity] ]
     | auto ]).
Qed.

Lemma blocklist_de_blocks_iff_marker_witness :
  net env_scored (blocklist_de_request ip_example) = Some response_scored /\
  status_code response_scored = 200 /\
  str_lower env_scored (text response_scored) = ascii_lower (text response_scored) /\
  is_substring_any_case "attacks:" (text response_scored) /\
  fst (_check_blocklist_de env_scored ip_example world0) = Ok (true, 80).
Proof.
  assert (Hnet : net env_scored (blocklist_de_request ip_example) = Some response_scored)
    by reflexivity.
  assert (Hs : status_code response_scored = 200) by reflexivity.
  assert (Hlower : str_lower env_scored (text response_scored)
                   = ascii_lower (text response_scored)) by reflexivity.
  destruct (blocklist_de_blocks_iff_marker env_scored ip_example world0
              response_scored Hnet Hs Hlower) as [Hiff _].
  split; [exact Hnet |]. split; [exact Hs |]. split; [exact Hlower |].
  assert (Hrun : fst (_check_blocklist_de env_scored ip_example world0) = Ok (true, 80))
    by reflexivity.
  split; [exact (proj1 (proj1 Hiff Hrun)) | exact Hrun].
Defined.

(** ** Which verdicts the registered sources can produce *)

Section VerdictShape.

Variable P : Verdict -> Prop.
Variable sources : list (string * adapter).

Hypothesis P_clean : P (false, None, 0).
Hypothesis P_blocked :
  forall name f env ip w c w',
    In (name, f) sources -> f env ip w = (Ok (true, c), w') ->
    P (true, Some name, c).

Lemma cached_verdicts_store st w ip v t :
  cached_verdicts P st -> P v ->
  cached_verdicts P (set_world (set_cache st (<[ip := (v, t)]> (cache st))) w).
Proof.
  intros [Hc Hm] Hv. split; [| exact Hm].
  intros ip' v' t'. cbn [cache set_world set_cache].
  rewrite lookup_insert_Some. intros [[_ [= <- _]] | [_ Hl]]; [exact Hv |].
  exact (Hc _ _ _ Hl).
Qed.

Lemma check_sources_shape items env ip st v st' :
  incl items sources ->
  cached_verdicts P st ->
  check_sources items env ip st = (Ok v, st') ->
  P v /\ cached_verdicts P st'.
Proof.
  revert st. induction items as [| [name f] rest IH]; intros st Hincl Hinv.
  - rewrite check_sources_nil. intros [= <- <-].
    split; [exact P_clean |]. now apply cached_verdicts_store.
  - assert (Hrest : incl rest sources) by (intros p Hp; apply Hincl; now right).
    destruct (adapter_cases f env ip (world st))
      as [(c & w & Hf) | [(c & w & Hf) | (e & w & Hf)]].
    + rewrite (check_sources_blocked _ _ _ _ _ _ _ _ Hf). intros [= <- <-].
      assert (Hv : P (true, Some name, c)).
      { eapply P_blocked; [apply Hincl; now left | exact Hf]. }
      split; [exact Hv |].
      apply (cached_verdicts_store (set_world st w)); [exact Hinv | exact Hv].
    + rewrite (check_sources_not_blocked _ _ _ _ _ _ _ _ Hf).
      apply IH; [exact Hrest | exact Hinv].
    + rewrite (check_sources_raised _ _ _ _ _ _ _ _ Hf).
      apply IH; [exact Hrest | exact Hinv].
Qed.

Lemma is_blacklisted_shape form env ip st v st' :
  cached_verdicts P st ->
  is_blacklisted sources form env ip st = (Ok v, st') ->
  P v /\ cached_verdicts P st'.
Proof.
  intros Hinv Hrun.
  destruct (is_blacklisted_cases sources form env ip st)
    as [(v0 & Hm & Hdec) | (v1 & st1 & Hm & Hbody & _ & Hdec)];
    rewrite Hdec in Hrun; injection Hrun as <- <-.
  - assert (Hv : P v0) by exact (proj2 Hinv _ _ (memo_lookup_In _ _ _ Hm)).
    split; [exact Hv |]. split; [exact (proj1 Hinv) |].
    intros ip' v' [[= <- <-] | Hin]; [exact Hv |].
    exact (proj2 Hinv _ _ (In_memo_remove _ _ _ Hin)).
  - assert (Hbody' : P v1 /\ cached_verdicts P st1).
    { destruct (live_entry st ip) as [v |] eqn:Hl.
      - rewrite (wrapped_hit _ _ _ _ _ Hl) in Hbody. injection Hbody as <- <-.
        destruct (live_entry_cached _ _ _ Hl) as [t Ht].
        split; [exact (proj1 Hinv _ _ _ Ht) | exact Hinv].
      - rewrite (wrapped_miss _ _ _ _ Hl) in Hbody.
        eapply check_sources_shape; [apply incl_refl | | exact Hbody].
        exact Hinv. }
    destruct Hbody' as [Hv Hinv1].
    split; [exact Hv |]. split; [exact (proj1 Hinv1) |].
    intros ip' v' [[= <- <-] | Hin]; [exact Hv |].
    exact (proj2 Hinv _ _ (In_evict _ _ Hin)).
Qed.

Lemma reachable_shape st : reachable sources st -> cached_verdicts P st.
Proof.
  induction 1 as [w | form env ip st r st' _ IH Hrun | st r st' _ IH Hrun | st w _ IH].
  - split; [intros ip v t | intros ip v []].
    cbn [cache __init__]. rewrite lookup_empty. discriminate.
  - destruct (is_blacklisted_returns sources form env ip st) as (v & st1 & m & Hok & _).
    rewrite Hok in Hrun. injection Hrun as <- <-.
    exact (proj2 (is_blacklisted_shape _ _ _ _ _ _ IH Hok)).
  - injection Hrun as _ <-. split; [intros ip v t | intros ip v []].
    cbn. rewrite lookup_empty. discriminate.
  - exact IH.
Qed.

End VerdictShape.

Lemma registered_sources_shape name f env ip w c w' :
  In (name, f) init_sources -> f env ip w = (Ok (true, c), w') ->
  registered_verdict (true, Some name, c).
Proof.
  intros [H | [H | [H | []]]] Hf; injection H as <- <-.
  - right. left. exists c. split; [reflexivity |].
    apply (abuseipdb_result_range env ip w true c); [now rewrite Hf | reflexivity].
  - right. right. left. exists c. split; [reflexivity |].
    apply (stopforumspam_result_range env ip w true c). now rewrite Hf.
  - right. right. right.
    destruct (blocklist_de_result_range env ip w (true, c)) as [[= ->] | [=]];
      [now rewrite Hf | reflexivity].
Qed.

(** X20. With the three registered sources, every verdict [is_blacklisted]
    returns, in any state the checker can reach, is (False, None, 0), or
    (True, "abuseipdb", c) with c above 75, or (True, "stopforumspam", c)
    with c at most 100, or (True, "blocklist_de", 80). *)
Theorem verdicts_of_registered_sources form env ip st v st' :
  reachable init_sources st ->
  is_blacklisted init_sources form env ip st = (Ok v, st') ->
  v = (false, None, 0) \/
  (exists c, v = (true, Some "abuseipdb"%string, c) /\ 75 < c) \/
  (exists c, v = (true, Some "stopforumspam"%string, c) /\ c <= 100) \/
  v = (true, Some "blocklist_de"%string, 80).
Proof.
  intros Hreach Hrun.
  assert (Hclean : registered_verdict (false, None, 0)) by now left.
  exact (proj1 (is_blacklisted_shape registered_verdict init_sources
                  Hclean registered_sources_shape form env ip st v st'
                  (reachable_shape registered_verdict init_sources
                     Hclean registered_sources_shape st Hreach)
                  Hrun)).
Qed.

Lemma verdicts_of_registered_sources_witness :
  reachable init_sources state0 /\
  is_blacklisted init_sources Positional env_scored ip_example state0
    = (Ok (true, Some "abuseipdb"%string, 85),
       snd (is_blacklisted init_sources Positional env_scored ip_example state0)) /\
  registered_verdict (true, Some "abuseipdb"%string, 85).
Proof.
  assert (Hreach : reachable init_sources state0) by apply reachable_init.
  assert (Hrun : is_blacklisted init_sources Positional env_scored ip_example state0
                 = (Ok (true, Some "abuseipdb"%string, 85),
                    snd (is_blacklisted init_sources Positional env_scored ip_example state0)))
    by (vm_compute; reflexivity).
  split; [exact Hreach |]. split; [exact Hrun |].
  exact (verdicts_of_registered_sources Positional env_scored ip_example state0 _ _ Hreach Hrun).
Defined.

(** ** What reaches the log file and the console *)

Lemma emitted_app h l1 l2 : emitted h (l1 ++ l2) = emitted h l1 ++ emitted h l2.
Proof. unfold emitted. apply List.filter_app. Qed.

Lemma emitted_debug h l m : emitted h (l ++ [(DEBUG, m)]) = emitted h l.
Proof. rewrite emitted_app. cbn. now rewrite app_nil_r. Qed.

Lemma check_sources_log items env ip st v st' :
  check_sources items env ip st = (Ok v, st') ->
  (exists l, log (world st') = l ++ [verdict_record ip v]) /\
  (v = (false, None, 0) \/ exists name c, v = (true, Some name, c)).
Proof.
  revert st. induction items as [| [name f] rest IH]; intros st.
  - rewrite check_sources_nil. intros [= <- <-]. split; [| now left].
    exists (log (world st)). reflexivity.
  - destruct (adapter_cases f env ip (world st))
      as [(c & w & Hf) | [(c & w & Hf) | (e & w & Hf)]].
    + rewrite (check_sources_blocked _ _ _ _ _ _ _ _ Hf). intros [= <- <-].
      split; [| right; eauto]. exists (log w). reflexivity.
    + rewrite (check_sources_not_blocked _ _ _ _ _ _ _ _ Hf). apply IH.
    + rewrite (check_sources_raised _ _ _ _ _ _ _ _ Hf). apply IH.
Qed.

(** X21. A lookup answered by the memo or by the timed cache writes nothing
    to the log file and nothing to the console (the hit is logged at DEBUG
    level, below the level of the logger). *)
Theorem cache_hits_are_silent sources form env ip st :
  memo_lookup (memo st) (form, ip) <> None \/ live_entry st ip <> None ->
  file_records (world (snd (is_blacklisted sources form env ip st)))
    = file_records (world st) /\
  console_records (world (snd (is_blacklisted sources form env ip st)))
    = console_records (world st).
Proof.
  intros Hhit.
  destruct (is_blacklisted_cases sources form env ip st)
    as [(v0 & Hm & Hdec) | (v1 & st1 & Hm & Hbody & _ & Hdec)];
    rewrite Hdec; cbn [snd world set_memo].
  - split; reflexivity.
  - destruct (live_entry st ip) as [v |] eqn:Hl.
    + rewrite (wrapped_hit _ _ _ _ _ Hl) in Hbody. injection Hbody as _ <-.
      unfold file_records, console_records. cbn [world set_world log add_log].
      now rewrite !emitted_debug.
    + destruct Hhit as [H | H]; congruence.
Qed.

Lemma cache_hits_are_silent_witness :
  memo_lookup (memo (snd (is_blacklisted init_sources Positional env_clean ip_example state0)))
    (Positional, ip_example) <> None /\
  file_records
    (world (snd (is_blacklisted init_sources Positional env_listed ip_example
                   (snd (is_blacklisted init_sources Positional env_clean ip_example state0)))))
  = file_records
      (world (snd (is_blacklisted init_sources Positional env_clean ip_example state0))).
Proof.
  assert (Hhit : memo_lookup
                   (memo (snd (is_blacklisted init_sources Positional env_clean ip_example state0)))
                   (Positional, ip_example) <> None) by (vm_compute; discriminate).
  split; [exact Hhit |].
  exact (proj1 (cache_hits_are_silent init_sources Positional env_listed ip_example _
                  (or_introl Hhit))).
Defined.

(** X22. A lookup that neither cache answers ends by logging its verdict:
    the last record written to the log file is the BLACKLISTED warning with
    the source and the confidence, or the NOT blacklisted line; a blocking
    verdict is also the last record on the console. *)
Theorem computed_verdict_is_logged sources form env ip st blocked source confidence st' :
  uncached form st ip ->
  is_blacklisted sources form env ip st = (Ok (blocked, source, confidence), st') ->
  (exists earlier,
     file_records (world st')
     = earlier ++ [verdict_record ip (blocked, source, confidence)]) /\
  (blocked = true ->
   exists earlier,
     console_records (world st')
     = earlier ++ [verdict_record ip (blocked, source, confidence)]).
Proof.
  intros [Hm Hl] Hrun.
  destruct (is_blacklisted_cases sources form env ip st)
    as [(v0 & Hm0 & _) | (v1 & st1 & _ & Hbody & _ & Hdec)]; [congruence |].
  rewrite Hdec in Hrun. injection Hrun as -> <-. cbn [world set_memo].
  rewrite (wrapped_miss _ _ _ _ Hl) in Hbody.
  destruct (check_sources_log _ _ _ _ _ _ Hbody) as [[l Hlog] Hshape].
  unfold file_records, console_records. rewrite Hlog, !emitted_app.
  destruct Hshape as [[= -> -> ->] | (name & c & [= -> -> ->])]; cbn.
  - split; [eauto | discriminate].
  - split; eauto.
Qed.

Lemma computed_verdict_is_logged_witness :
  uncached Positional state0 ip_example /\
  exists earlier,
    console_records
      (world (snd (is_blacklisted init_sources Positional env_scored ip_example state0)))
    = earlier ++ [(WARNING, MsgBlacklisted ip_example "abuseipdb" 85)].
Proof.
  assert (Hmiss : uncached Positional state0 ip_example) by (split; reflexivity).
  split; [exact Hmiss |].
  apply (proj2 (computed_verdict_is_logged init_sources Positional env_scored ip_example state0
                  true (Some "abuseipdb"%string) 85 _ Hmiss
                  ltac:(vm_compute; reflexivity)) eq_refl).
Defined.

(** ** A computed verdict depends on the answers only *)

Lemma uniform_result {A : Type} (m : M World A) w1 w2 :
  uniform m -> fst (m w1) = fst (m w2).
Proof. intros (r & dt & rs & ls & Hm). now rewrite !Hm. Qed.




